(** * Inventory_m_lite: the React front end and the check-out contract

    A shallow embedding of the TypeScript sources of the inventory
    front end (the API wrappers of [api/checkout.ts] and
    [api/inventory.ts], the [ItemCard], [CheckoutModal] and
    [CheckinModal] components, the [ItemDetailsPage] and the
    [DashboardPage]), and of the check-out service they talk to.

    Conventions of the embedding:
    - a JavaScript string is the list of its UTF-16 code units;
    - the quantities of an item are integers ([Z]); the one floating
      point operation of the sources, [quantity_total * 0.2], is
      IEEE 754 binary64 and is computed with the Standard Library's
      [SpecFloat];
    - a component is a state record and a transition function per
      handler; the requests a handler hands to the HTTP client are
      returned as a list, in the order they are issued. *)

From Stdlib Require Import ZArith NArith QArith List Bool Lia String Ascii.
From Stdlib Require Import Floats.SpecFloat.
From stdpp Require Import base tactics option list gmap strings pretty sorting.

Local Open Scope Z_scope.

(** ** JavaScript values *)

Module JS.

Definition code_unit := N.
Definition jsstring := list code_unit.

(** An ASCII literal of the sources as a JavaScript string. *)
Definition lit (s : string) : jsstring :=
  map N_of_ascii (list_ascii_of_string s).

(** ECMAScript [WhiteSpace] and [LineTerminator] code points, the ones
    [String.prototype.trim] strips; all of them are single code units. *)
Definition is_white_space (c : code_unit) : bool :=
  ((9 <=? c) && (c <=? 13) (* TAB LF VT FF CR *)
   || (c =? 32) || (c =? 160) || (c =? 5760)
   || (8192 <=? c) && (c <=? 8202)
   || (c =? 8232) || (c =? 8233) || (c =? 8239) || (c =? 8287)
   || (c =? 12288) || (c =? 65279))%N.

Fixpoint trimStart (s : jsstring) : jsstring :=
  match s with
  | c :: s' => if is_white_space c then trimStart s' else s
  | [] => []
  end.

Definition trimEnd (s : jsstring) : jsstring :=
  rev (trimStart (rev s)).

Definition trim (s : jsstring) : jsstring := trimEnd (trimStart s).

(** Truthiness of a string: every string but the empty one. *)
Definition truthy (s : jsstring) : bool :=
  match s with [] => false | _ => true end.

(** [s || undefined]. *)
Definition or_undefined (s : jsstring) : option jsstring :=
  if truthy s then Some s else None.

(** The values that occur in the request bodies. *)
Inductive value :=
| Num (n : Z)
| Str (s : jsstring).

(** An object literal: its own properties in insertion order, [None]
    for a property whose value is [undefined]. *)
Definition object := list (string * option value).

(** [JSON.stringify] of an object keeps the properties in order and
    leaves out the ones that are [undefined]. *)
Fixpoint stringify (o : object) : list (string * value) :=
  match o with
  | [] => []
  | (k, Some v) :: o' => (k, v) :: stringify o'
  | (_, None) :: o' => stringify o'
  end.

(** *** USV strings

    The Web APIs that take a [USVString] ([URLSearchParams] among them)
    replace every surrogate code unit that is not part of a pair by
    U+FFFD. *)
Definition is_high_surrogate (c : code_unit) : bool :=
  ((55296 <=? c) && (c <=? 56319))%N.

Definition is_low_surrogate (c : code_unit) : bool :=
  ((56320 <=? c) && (c <=? 57343))%N.

Fixpoint to_usv (s : jsstring) : jsstring :=
  match s with
  | [] => []
  | c :: s' =>
      if is_high_surrogate c then
        match s' with
        | d :: s'' =>
            if is_low_surrogate d then c :: d :: to_usv s''
            else 65533%N :: to_usv s'
        | [] => [65533%N]
        end
      else if is_low_surrogate c then 65533%N :: to_usv s'
      else c :: to_usv s'
  end.

(** Well-formed UTF-16: every high surrogate is followed by a low one,
    and no low surrogate stands alone. *)
Fixpoint well_formed (s : jsstring) : bool :=
  match s with
  | [] => true
  | c :: s' =>
      if is_high_surrogate c then
        match s' with
        | d :: s'' => is_low_surrogate d && well_formed s''
        | [] => false
        end
      else negb (is_low_surrogate c) && well_formed s'
  end.

(** *** Numbers

    A JavaScript number is an IEEE 754 binary64 value. *)
Definition prec : Z := 53.
Definition emax : Z := 1024.
Definition number := spec_float.

(** The number an integer converts to (round to nearest, ties to even). *)
Definition of_Z (z : Z) : number := binary_normalize prec emax z 0 false.

Definition mul : number -> number -> number := SFmul prec emax.
Definition lt : number -> number -> bool := SFltb.

(** The literal [0.2]: the double nearest to one fifth,
    [0x1.999999999999Ap-3]. *)
Definition lit_0_2 : number := S754_finite false 7205759403792794 (-55).

End JS.

Import JS.

(** ** types/index.ts *)

Record Item := {
  item_id : Z;
  item_name : jsstring;
  category : jsstring;
  location : jsstring;
  quantity_total : Z;
  quantity_available : Z;
  quantity_checked_out : Z;
}.

Record ActiveCheckout := {
  ac_checkout_id : Z;
  ac_item_id : Z;
  ac_quantity : Z;
  ac_ldap : jsstring;
  ac_is_overdue : bool;
  ac_days_overdue : Z;
}.

Record CheckoutFormData := {
  cf_item_id : Z;
  cf_user_ldap : jsstring;
  cf_quantity : Z;
  cf_expected_return_datetime : option jsstring;
  cf_checkout_condition : jsstring;
  cf_notes : option jsstring;
}.

Record CheckinFormData := {
  ci_checkout_id : Z;
  ci_return_condition : jsstring;
  ci_return_notes : option jsstring;
}.

(** The three values of the condition selects. *)
Inductive Condition := good | fair | poor.

Definition condition_string (c : Condition) : jsstring :=
  match c with
  | good => lit "good"
  | fair => lit "fair"
  | poor => lit "poor"
  end.

(** The object literals the modals build, property by property. *)
Definition CheckoutFormData_object (d : CheckoutFormData) : object :=
  [ ("item_id", Some (Num (cf_item_id d)));
    ("user_ldap", Some (Str (cf_user_ldap d)));
    ("quantity", Some (Num (cf_quantity d)));
    ("expected_return_datetime", Str <$> cf_expected_return_datetime d);
    ("checkout_condition", Some (Str (cf_checkout_condition d)));
    ("notes", Str <$> cf_notes d) ]%string.

Definition CheckinFormData_object (d : CheckinFormData) : object :=
  [ ("checkout_id", Some (Num (ci_checkout_id d)));
    ("return_condition", Some (Str (ci_return_condition d)));
    ("return_notes", Str <$> ci_return_notes d) ]%string.

(** ** The HTTP client

    [apiClient] is an axios instance; a call to it is recorded as the
    method, the URL it was given and its second argument. *)

Definition URLSearchParams := list (string * jsstring).

Inductive Url :=
| Path (p : string)
| PathQuery (p : string) (params : URLSearchParams).

Inductive Method := GET | POST.

Record Request := {
  method : Method;
  url : Url;
  payload : option object;
}.

Definition apiClient_get (u : Url) (config : option object) : Request :=
  {| method := GET; url := u; payload := config |}.

Definition apiClient_post (u : Url) (data : object) : Request :=
  {| method := POST; url := u; payload := Some data |}.

(** The JSON body a request carries: the serialised data of a POST;
    a GET has none. *)
Definition body (r : Request) : option (list (string * value)) :=
  match method r with
  | POST => stringify <$> payload r
  | GET => None
  end.

(** ** api/checkout.ts and api/inventory.ts *)

Module Api.

Definition checkoutItem (data : CheckoutFormData) : Request :=
  apiClient_post (Path "/api/checkout") (CheckoutFormData_object data).

Definition checkinItem (data : CheckinFormData) : Request :=
  apiClient_post (Path "/api/checkout/checkin") (CheckinFormData_object data).

(** The parameter is declared as a [CheckinFormData] and handed to
    [get] as its configuration; the pages call the function without
    an argument. *)
Definition getActiveCheckouts (data : option CheckinFormData) : Request :=
  apiClient_get (Path "api/checkout/active") (CheckinFormData_object <$> data).

Definition getOverdueCheckouts : Request :=
  apiClient_get (Path "/api/checkout/overdue") None.

Definition getInventory (location : jsstring) (ldap : option jsstring) : Request :=
  let params : URLSearchParams := [("location"%string, location)] in
  let params :=
    match ldap with
    | Some l => if truthy l then params ++ [("ldap"%string, l)] else params
    | None => params
    end in
  apiClient_get (PathQuery "/api/inventory" params) None.

Definition searchInventory (query : jsstring) (location : option jsstring) : Request :=
  let params : URLSearchParams := [("q"%string, query)] in
  let params :=
    match location with
    | Some l => if truthy l then params ++ [("location"%string, l)] else params
    | None => params
    end in
  apiClient_get (PathQuery "/api/inventory/search" params) None.

End Api.

(** ** components/ui *)

Inductive Variant := success | warning | danger | info | primary | secondary.

Record Badge := {
  badge_variant : Variant;
  badge_children : string;
}.

(** What a click on a control does. *)
Inductive Action :=
| SetIsCheckoutModalOpen (b : bool)
| OnCheckout (item : Item).

Record Button := {
  button_variant : Variant;
  button_disabled : bool;
  button_onClick : option Action;
  button_children : string;
}.

(** A click on a button runs its handler, unless the button is disabled. *)
Definition click (b : Button) : list Action :=
  if button_disabled b then []
  else match button_onClick b with
       | Some a => [a]
       | None => []
       end.

(** [quantity_available < quantity_total * 0.2], on JavaScript numbers. *)
Definition below_fifth (item : Item) : bool :=
  lt (of_Z (quantity_available item)) (mul (of_Z (quantity_total item)) lit_0_2).

(** ** components/features/ItemCard.tsx *)

Module ItemCard.

Definition getAvailabilityBadge (item : Item) : Badge :=
  if quantity_available item =? 0 then
    {| badge_variant := danger; badge_children := "Out of Stock" |}
  else if below_fifth item then
    {| badge_variant := warning; badge_children := "Low Stock" |}
  else
    {| badge_variant := success; badge_children := "Available" |}.

(** The buttons of the card's action row (the "View Details" link is
    a link, not a button): the Checkout button is rendered when the
    item has stock and the parent passed a handler. *)
Definition buttons (item : Item) (onCheckout : bool) : list Button :=
  if (0 <? quantity_available item) && onCheckout then
    [ {| button_variant := primary; button_disabled := false;
         button_onClick := Some (OnCheckout item);
         button_children := "Checkout" |} ]
  else [].

End ItemCard.

(** ** components/features/CheckoutModal.tsx *)

Module CheckoutModal.

Record FormData := {
  ldap : jsstring;
  quantity : Z;
  expectedReturn : jsstring;
  condition : Condition;
  notes : jsstring;
}.

Record State := {
  formData : FormData;
  errors : gmap string string;
  isPending : bool;
}.

Definition initialFormData : FormData :=
  {| ldap := []; quantity := 1; expectedReturn := [];
     condition := good; notes := [] |}.

Definition initial : State :=
  {| formData := initialFormData; errors := ∅; isPending := false |}.

Definition resetForm (st : State) : State :=
  {| formData := initialFormData; errors := ∅; isPending := isPending st |}.

(** The errors [validate] collects; the quantities are integers, which
    the template literal prints in decimal. *)
Definition newErrors (item : Item) (fd : FormData) : gmap string string :=
  let e : gmap string string := ∅ in
  let e :=
    if negb (truthy (trim (ldap fd)))
    then <["ldap"%string := "LDAP username is required"%string]> e
    else e in
  let e :=
    if quantity fd <? 1
    then <["quantity"%string := "Quantity must be at least 1"%string]> e
    else if quantity_available item <? quantity fd
    then <["quantity"%string :=
            ("Only " +:+ pretty (quantity_available item) +:+ " available")%string]> e
    else e in
  e.

(** [validate]: stores the errors and tells whether there are none. *)
Definition validate (item : Item) (st : State) : State * bool :=
  let e := newErrors item (formData st) in
  ({| formData := formData st; errors := e; isPending := isPending st |},
   (size e =? 0)%nat).

Definition submitted (item : Item) (fd : FormData) : CheckoutFormData :=
  {| cf_item_id := item_id item;
     cf_user_ldap := trim (ldap fd);
     cf_quantity := quantity fd;
     cf_expected_return_datetime := or_undefined (expectedReturn fd);
     cf_checkout_condition := condition_string (condition fd);
     cf_notes := or_undefined (trim (notes fd)) |}.

(** [handleSubmit]: the new state and the requests handed to the
    mutation (none, or the one check-out). *)
Definition handleSubmit (item : Item) (st : State) : State * list Request :=
  let '(st', ok) := validate item st in
  if negb ok then (st', [])
  else
    ({| formData := formData st'; errors := errors st'; isPending := true |},
     [Api.checkoutItem (submitted item (formData st'))]).

(** [handleClose]; the second component tells whether [onClose] ran. *)
Definition handleClose (st : State) : State * bool :=
  if negb (isPending st) then (resetForm st, true) else (st, false).

(** The mutation's [onSuccess] (after [onClose]) and [onError]. *)
Definition onSuccess (st : State) : State :=
  resetForm {| formData := formData st; errors := errors st; isPending := false |}.

Definition onError (msg : string) (st : State) : State :=
  {| formData := formData st;
     errors := {[ "submit"%string := msg ]};
     isPending := false |}.

(** The [onChange] handlers of the fields; the quantity field stores
    [parseInt(value) || 1], [None] standing for [NaN]. *)
Inductive Change :=
| ChangeLdap (v : jsstring)
| ChangeQuantity (parsed : option Z)
| ChangeExpectedReturn (v : jsstring)
| ChangeCondition (c : Condition)
| ChangeNotes (v : jsstring).

Definition onChange (c : Change) (fd : FormData) : FormData :=
  match c with
  | ChangeLdap v =>
      {| ldap := v; quantity := quantity fd; expectedReturn := expectedReturn fd;
         condition := condition fd; notes := notes fd |}
  | ChangeQuantity parsed =>
      let q := match parsed with
               | Some n => if n =? 0 then 1 else n
               | None => 1
               end in
      {| ldap := ldap fd; quantity := q; expectedReturn := expectedReturn fd;
         condition := condition fd; notes := notes fd |}
  | ChangeExpectedReturn v =>
      {| ldap := ldap fd; quantity := quantity fd; expectedReturn := v;
         condition := condition fd; notes := notes fd |}
  | ChangeCondition c' =>
      {| ldap := ldap fd; quantity := quantity fd; expectedReturn := expectedReturn fd;
         condition := c'; notes := notes fd |}
  | ChangeNotes v =>
      {| ldap := ldap fd; quantity := quantity fd; expectedReturn := expectedReturn fd;
         condition := condition fd; notes := v |}
  end.

End CheckoutModal.

(** ** components/features/CheckinModal.tsx *)

Module CheckinModal.

Record FormData := {
  returnCondition : Condition;
  returnNotes : jsstring;
}.

Record State := {
  formData : FormData;
  errors : gmap string string;
  isPending : bool;
}.

Definition initial : State :=
  {| formData := {| returnCondition := good; returnNotes := [] |};
     errors := ∅; isPending := false |}.

Definition resetForm (st : State) : State :=
  {| formData := {| returnCondition := good; returnNotes := lit "returned" |};
     errors := ∅; isPending := isPending st |}.

Definition submitted (checkout : ActiveCheckout) (fd : FormData) : CheckinFormData :=
  {| ci_checkout_id := ac_checkout_id checkout;
     ci_return_condition := condition_string (returnCondition fd);
     ci_return_notes := or_undefined (trim (returnNotes fd)) |}.

Definition handleSubmit (checkout : ActiveCheckout) (st : State) : State * list Request :=
  ({| formData := formData st; errors := errors st; isPending := true |},
   [Api.checkinItem (submitted checkout (formData st))]).

End CheckinModal.

(** ** pages/ItemDetailsPage.tsx *)

Module ItemDetailsPage.

Definition getAvailabilityBadge (item : Item) : Badge :=
  if quantity_available item =? 0 then
    {| badge_variant := danger; badge_children := "Out of Stock" |}
  else if below_fifth item then
    {| badge_variant := warning; badge_children := "Low Stock" |}
  else
    {| badge_variant := success; badge_children := "Available" |}.

(** The first control of the Actions card. *)
Definition actionButton (item : Item) : Button :=
  if 0 <? quantity_available item then
    {| button_variant := primary; button_disabled := false;
       button_onClick := Some (SetIsCheckoutModalOpen true);
       button_children := "Checkout Item" |}
  else
    {| button_variant := secondary; button_disabled := true;
       button_onClick := None;
       button_children := "Out of Stock" |}.

(** The page: the item the query last returned, the modal flag and the
    state of the [CheckoutModal] it renders. *)
Record State := {
  item : Item;
  isCheckoutModalOpen : bool;
  modal : CheckoutModal.State;
}.

Definition initial (i : Item) : State :=
  {| item := i; isCheckoutModalOpen := false; modal := CheckoutModal.initial |}.

Inductive Event :=
| ClickActionButton
| Refetched (i : Item)
| Change (c : CheckoutModal.Change)
| Submit
| Close
| MutationSuccess
| MutationError (msg : string).

Definition run (a : Action) (st : State) : State :=
  match a with
  | SetIsCheckoutModalOpen b =>
      {| item := item st; isCheckoutModalOpen := b; modal := modal st |}
  | OnCheckout _ => st
  end.

(** One event: the next state and the requests issued. The events of
    the modal are accepted whether or not the modal is shown. *)
Definition step (st : State) (ev : Event) : State * list Request :=
  match ev with
  | ClickActionButton =>
      (fold_left (fun s a => run a s) (click (actionButton (item st))) st, [])
  | Refetched i =>
      ({| item := i; isCheckoutModalOpen := isCheckoutModalOpen st;
          modal := modal st |}, [])
  | Change c =>
      ({| item := item st; isCheckoutModalOpen := isCheckoutModalOpen st;
          modal := {| CheckoutModal.formData :=
                        CheckoutModal.onChange c (CheckoutModal.formData (modal st));
                      CheckoutModal.errors := CheckoutModal.errors (modal st);
                      CheckoutModal.isPending := CheckoutModal.isPending (modal st) |} |},
       [])
  | Submit =>
      let '(m, reqs) := CheckoutModal.handleSubmit (item st) (modal st) in
      ({| item := item st; isCheckoutModalOpen := isCheckoutModalOpen st;
          modal := m |}, reqs)
  | Close =>
      let '(m, closed) := CheckoutModal.handleClose (modal st) in
      ({| item := item st;
          isCheckoutModalOpen := if closed then false else isCheckoutModalOpen st;
          modal := m |}, [])
  | MutationSuccess =>
      ({| item := item st; isCheckoutModalOpen := false;
          modal := CheckoutModal.onSuccess (modal st) |}, [])
  | MutationError msg =>
      ({| item := item st; isCheckoutModalOpen := isCheckoutModalOpen st;
          modal := CheckoutModal.onError msg (modal st) |}, [])
  end.

(** A run of events: the final state and all requests, in order. *)
Fixpoint steps (st : State) (evs : list Event) : State * list Request :=
  match evs with
  | [] => (st, [])
  | ev :: evs' =>
      let '(st', r) := step st ev in
      let '(st'', r') := steps st' evs' in
      (st'', r ++ r')
  end.

(** The items a run displays: the first one and every refetched one. *)
Fixpoint displayed (i : Item) (evs : list Event) : list Item :=
  match evs with
  | [] => [i]
  | Refetched i' :: evs' => i :: displayed i' evs'
  | _ :: evs' => displayed i evs'
  end.

End ItemDetailsPage.

(** ** pages/DashboardPage.tsx *)

Module DashboardPage.

Record Stats := {
  totalItems : nat;
  availableItems : nat;
  outOfStock : nat;
  lowStock : nat;
}.

Definition isAvailable (item : Item) : bool := 0 <? quantity_available item.
Definition isOutOfStock (item : Item) : bool := quantity_available item =? 0.
Definition isLowStock (item : Item) : bool :=
  (0 <? quantity_available item) && below_fifth item.

Definition stats (items : list Item) : Stats :=
  {| totalItems := length items;
     availableItems := length (List.filter isAvailable items);
     outOfStock := length (List.filter isOutOfStock items);
     lowStock := length (List.filter isLowStock items) |}.

End DashboardPage.

(** ** The check-out service

    The service behind the HTTP interface (the Flask application) is
    not among the sources; it is modelled here from sections 3 to 5
    of the specification. Times are seconds on a common clock. *)

Module Service.

(** Modelled from the spec: the open loan of section 3 (the back end's
    checkout table is missing from the sources). *)
Record Checkout := {
  checkout_id : Z;
  co_item_id : Z;
  co_user_id : Z;
  co_quantity : Z;
  checkout_date : Z;
  expected_return_datetime : Z;
  checkout_condition : Condition;
  co_notes : option jsstring;
}.

(** Modelled from the spec: the history record of section 3, the
    closed loan with its return data (the back end's history table is
    missing from the sources). *)
Record CheckoutHistory := {
  closed : Checkout;
  return_date : Z;
  return_condition : Condition;
  is_returned : bool;
  late_return : bool;
  return_notes : option jsstring;
}.

(** Modelled from the spec: the relational store of section 2 (item
    rows, the user directory keyed by LDAP handle, the open loans by
    checkout id, the history, and the next free checkout id); the back
    end's database is missing from the sources. *)
Record Store := {
  items : list Item;
  users : gmap jsstring Z;
  open : gmap Z Checkout;
  history : list CheckoutHistory;
  next_id : Z;
}.

(** Modelled from the spec: the failure conditions of sections 4.1
    and 4.2 (the back end's error types are missing from the sources). *)
Inductive Error :=
| ItemNotFound
| UserNotFound
| InsufficientQuantity
| InvalidQuantity
| CheckoutNotFound
| AlreadyReturned.

(** Modelled from the spec: the outcome of an operation, its result or
    the failure reported to the caller (section 4). *)
Inductive Result (A : Type) :=
| Ok (a : A)
| Err (e : Error).
Arguments Ok {A} a.
Arguments Err {A} e.

(** Modelled from the spec: the length of the days in which
    [days_overdue] and the seven-day default are counted. *)
Definition day : Z := 86400.

(** Modelled from the spec: the row of an item id in the item store
    (the back end's query is missing from the sources). *)
Definition find_item (id : Z) (its : list Item) : option Item :=
  List.find (fun i => item_id i =? id) its.

(** Modelled from the spec: "decrements [quantity_available] by
    [quantity], increments [quantity_checked_out] by [quantity]"
    (section 4.1); a negative amount is the check-in of section 4.2.
    The back end's update statement is missing from the sources. *)
Definition move_out (q : Z) (i : Item) : Item :=
  {| item_id := item_id i; item_name := item_name i; category := category i;
     location := location i; quantity_total := quantity_total i;
     quantity_available := quantity_available i - q;
     quantity_checked_out := quantity_checked_out i + q |}.

(** Modelled from the spec: the update of the row of one item id
    (sections 4.1 and 4.2); the other rows are untouched. *)
Definition update_item (id : Z) (f : Item -> Item) (its : list Item) : list Item :=
  map (fun i => if item_id i =? id then f i else i) its.

Section Operations.

(** Which item rows count as active; the specification does not say
    how the status column encodes it. *)
Variable active : Item -> bool.

(** Modelled from the spec: the operation [checkout] of section 4.1
    (the back end's check-out handler is missing from the sources).
    The quantity is validated first, then the item, the user and
    the stock; on success the item row and the open loans are
    written together. *)
Definition checkout (now : Z) (id : Z) (user_ldap : jsstring) (q : Z)
    (expected : option Z) (cond : Condition) (notes : option jsstring)
    (s : Store) : Result (Store * Checkout) :=
  if q <=? 0 then Err InvalidQuantity else
  match find_item id (items s) with
  | None => Err ItemNotFound
  | Some it =>
      if negb (active it) then Err ItemNotFound else
      match users s !! user_ldap with
      | None => Err UserNotFound
      | Some uid =>
          if quantity_available it <? q then Err InsufficientQuantity else
          let c := {| checkout_id := next_id s; co_item_id := id;
                      co_user_id := uid; co_quantity := q;
                      checkout_date := now;
                      expected_return_datetime := default (now + 7 * day) expected;
                      checkout_condition := cond; co_notes := notes |} in
          Ok ({| items := update_item id (move_out q) (items s);
                 users := users s;
                 open := <[next_id s := c]> (open s);
                 history := history s;
                 next_id := next_id s + 1 |}, c)
      end
  end.

(** Modelled from the spec: the operation [checkin] of section 4.2
    (the back end's check-in handler is missing from the sources). *)
Definition checkin (now : Z) (id : Z) (cond : Condition)
    (notes : option jsstring) (s : Store) : Result (Store * CheckoutHistory) :=
  match open s !! id with
  | None =>
      if existsb (fun h => checkout_id (closed h) =? id) (history s)
      then Err AlreadyReturned else Err CheckoutNotFound
  | Some c =>
      let h := {| closed := c; return_date := now; return_condition := cond;
                  is_returned := true;
                  late_return := expected_return_datetime c <? now;
                  return_notes := notes |} in
      Ok ({| items := update_item (co_item_id c) (move_out (- co_quantity c)) (items s);
             users := users s;
             open := delete id (open s);
             history := history s ++ [h];
             next_id := next_id s |}, h)
  end.

(** Modelled from the spec: a request to the service; each one runs
    as one atomic transaction (section 5), so concurrent attempts
    are a sequence of requests in some order. *)
Inductive Op :=
| DoCheckout (now id : Z) (user_ldap : jsstring) (q : Z)
    (expected : option Z) (cond : Condition) (notes : option jsstring)
| DoCheckin (now id : Z) (cond : Condition) (notes : option jsstring).

(** Modelled from the spec: a failed operation "mutates nothing"
    (sections 7 and 8). *)
Definition exec (s : Store) (op : Op) : Store :=
  match op with
  | DoCheckout now id l q e c n =>
      match checkout now id l q e c n s with
      | Ok (s', _) => s'
      | Err _ => s
      end
  | DoCheckin now id c n =>
      match checkin now id c n s with
      | Ok (s', _) => s'
      | Err _ => s
      end
  end.

(** Modelled from the spec: the transactions of a sequence of requests,
    one after the other (section 5). *)
Definition run (s : Store) (ops : list Op) : Store := fold_left exec ops s.

End Operations.

(** Modelled from the spec: "quantity_available + quantity_checked_out
    == quantity_total" (section 3), for one item row. *)
Definition conserved (i : Item) : Prop :=
  quantity_available i + quantity_checked_out i = quantity_total i.

(** Modelled from the spec: [is_overdue] of section 3 for an open
    loan, "(no return yet) AND (now > expected_return_datetime)"; the
    back end's computation is missing from the sources. *)
Definition is_overdue (now : Z) (c : Checkout) : bool :=
  expected_return_datetime c <? now.

(** Modelled from the spec: [days_overdue] of section 3, "whole days
    between now and expected_return_datetime, floored at 0 when not
    overdue". *)
Definition days_overdue (now : Z) (c : Checkout) : Z :=
  if is_overdue now c then (now - expected_return_datetime c) / day else 0.

(** Modelled from the spec: [listActive] and [listOverdue] of section
    4.3, the open loans annotated with the two derived fields. *)
Definition listActive (now : Z) (s : Store) : list (Checkout * bool * Z) :=
  map (fun c => (c, is_overdue now c, days_overdue now c))
      (map snd (map_to_list (open s))).

Definition listOverdue (now : Z) (s : Store) : list (Checkout * bool * Z) :=
  List.filter (fun r => snd (fst r)) (listActive now s).

(** Modelled from the spec: the case folding behind "case-insensitive"
    (section 4.3), which the specification does not spell out: a capital
    letter of the ASCII alphabet becomes its small letter, every other
    code unit is kept. *)
Definition ascii_lower (s : jsstring) : jsstring :=
  map (fun c => if (65 <=? c) && (c <=? 90) then c + 32 else c)%N s.

(** Modelled from the spec: "substring match" (section 4.3), as a
    prefix of some suffix. *)
Fixpoint is_prefix (p s : jsstring) : bool :=
  match p, s with
  | [], _ => true
  | _ :: _, [] => false
  | a :: p', b :: s' => (a =? b)%N && is_prefix p' s'
  end.

(** Modelled from the spec: "substring match" (section 4.3). *)
Fixpoint is_substring (p s : jsstring) : bool :=
  is_prefix p s ||
  match s with
  | [] => false
  | _ :: s' => is_substring p s'
  end.

(** Modelled from the spec: the filter of [search] (section 4.3), a
    match against name or category after case folding, and the location
    when one is given. *)
Definition matches (query : jsstring) (loc : option jsstring) (i : Item) : bool :=
  (is_substring (ascii_lower query) (ascii_lower (item_name i))
   || is_substring (ascii_lower query) (ascii_lower (category i)))
  && match loc with
     | Some l => bool_decide (location i = l)
     | None => true
     end.

(** Modelled from the spec: "stable order by item_id" (section 4.3). *)
Definition by_item_id (i j : Item) : Prop := item_id i <= item_id j.

#[local] Instance by_item_id_dec i j : Decision (by_item_id i j).
Proof. unfold by_item_id. apply _. Defined.

(** Modelled from the spec: [search] of section 4.3, "case-insensitive
    substring match against item name and category, optionally filtered
    by location; no ranking, stable order by item_id" (the back end's
    search query is missing from the sources). *)
Definition search (query : jsstring) (loc : option jsstring) (its : list Item) : list Item :=
  merge_sort by_item_id (List.filter (matches query loc) its).

End Service.


(** ** Conditions and views used in the statements *)

(** The LDAP field is blank after trimming. *)
Definition ldap_blank (fd : CheckoutModal.FormData) : Prop :=
  trim (CheckoutModal.ldap fd) = [].

(** The requested quantity is below one or above the stock. *)
Definition quantity_refused (item : Item) (fd : CheckoutModal.FormData) : Prop :=
  CheckoutModal.quantity fd < 1 \/
  quantity_available item < CheckoutModal.quantity fd.

(** The availability status in the words of the specification, with
    exact rational arithmetic: out of stock at zero, low stock below
    [0.2 * total], available otherwise. *)
Definition availabilityStatus (available total : Z) : string :=
  if available =? 0 then "Out of Stock"
  else match (inject_Z available ?= (2 # 10) * inject_Z total)%Q with
       | Lt => "Low Stock"
       | _ => "Available"
       end.

(** The quantities JavaScript represents exactly: the non-negative
    safe integers. *)
Definition safe (z : Z) : Prop := 0 <= z < 2 ^ 53.

(** Where the low [k] bits of [P] lie with respect to half of [2 ^ k]:
    the rounding information a right shift by [k] keeps. *)
Definition loc_of (P k : Z) : SpecFloat.location :=
  if P mod 2 ^ k =? 0 then loc_Exact
  else loc_Inexact (2 * (P mod 2 ^ k) ?= 2 ^ k).

(** [mrs] is [P] shifted right by [k] bits. *)
Definition shifted (P k : Z) (mrs : shr_record) : Prop :=
  shr_m mrs = P / 2 ^ k /\ loc_of_shr_record mrs = loc_of P k.

(** A search parameter when it is present. *)
Definition optional_param (k : string) (o : option jsstring) : URLSearchParams :=
  match o with
  | Some s => [(k, s)]
  | None => []
  end.

(** [URLSearchParams.get]: the first value under a name. *)
Fixpoint params_get (k : string) (ps : URLSearchParams) : option jsstring :=
  match ps with
  | [] => None
  | (k', v) :: ps' => if String.eqb k' k then Some v else params_get k ps'
  end.

Definition url_path (u : Url) : string :=
  match u with
  | Path p => p
  | PathQuery p _ => p
  end.

Definition url_params (u : Url) : URLSearchParams :=
  match u with
  | Path _ => []
  | PathQuery _ ps => ps
  end.

(** The parameters a URL carries to the server. [URLSearchParams] holds
    USV strings, so this is what the query string encodes and what the
    server decodes from it. *)
Definition sent_params (u : Url) : URLSearchParams :=
  map (fun kv => (fst kv, to_usv (snd kv))) (url_params u).

(** Modelled from the spec: the endpoint
    [GET /api/inventory/search?q=<text>&location=<loc?>] of section 6
    (the back end's route is missing from the sources): [search] on the
    parameters [q] and [location] of the request; the specification
    describes no answer to other requests. *)
Definition search_endpoint (r : Request) (its : list Item) : option (list Item) :=
  match method r with
  | GET =>
      if String.eqb (url_path (url r)) "/api/inventory/search" then
        match params_get "q" (sent_params (url r)) with
        | Some q =>
            Some (Service.search q (params_get "location" (sent_params (url r))) its)
        | None => None
        end
      else None
  | POST => None
  end.

(** Two code units that are the same letter up to case: the same code
    unit, or a capital letter of the ASCII alphabet and its small letter. *)
Definition same_letter (c d : code_unit) : Prop :=
  c = d \/
  ((65 <= c <= 90)%N /\ d = (c + 32)%N) \/
  ((65 <= d <= 90)%N /\ c = (d + 32)%N).

(** Two strings that are equal up to the case of their letters. *)
Definition eq_ci (s t : jsstring) : Prop := Forall2 same_letter s t.

(** [s] contains [q] up to the case of the letters. *)
Definition contains_ci (s q : jsstring) : Prop :=
  exists a m b, s = a ++ m ++ b /\ eq_ci m q.

(** The scenario of the specification: five drills, two checked out by
    "abc", then returned in good condition within the window. *)
Definition scenario_store : Service.Store :=
  {| Service.items :=
       [ {| item_id := 1; item_name := lit "Drill"; category := lit "tools";
            location := lit "san_jose"; quantity_total := 5;
            quantity_available := 5; quantity_checked_out := 0 |} ];
     Service.users := {[ lit "abc" := 10 ]};
     Service.open := ∅;
     Service.history := [];
     Service.next_id := 1 |}.

Definition scenario_ops : list Service.Op :=
  [ Service.DoCheckout 1000 1 (lit "abc") 2 None good None;
    Service.DoCheckin 2000 1 good None ].

(** A drill with three of ten units left, and a filled check-out form
    for it, for the examples. *)
Definition drill : Item :=
  {| item_id := 1; item_name := lit "Drill"; category := lit "tools";
     location := lit "san_jose"; quantity_total := 10;
     quantity_available := 3; quantity_checked_out := 7 |}.

Definition filled_form : CheckoutModal.State :=
  {| CheckoutModal.formData :=
       {| CheckoutModal.ldap := lit " jdoe ";
          CheckoutModal.quantity := 2;
          CheckoutModal.expectedReturn := [];
          CheckoutModal.condition := fair;
          CheckoutModal.notes := lit "  " |};
     CheckoutModal.errors := ∅;
     CheckoutModal.isPending := false |}.

(** * Further components *)

(** ** [parseInt] and the printing of integers

    [parseInt] without a radix: leading white space is skipped, a sign
    is read, a [0x] or [0X] prefix selects radix 16, and the longest
    run of digits is the value; no digit at all is [NaN], here [None].
    The result is the integer the digits denote. JavaScript returns the
    number nearest to it, which is the integer itself exactly when it
    is a safe integer: the statements about [parseInt] bound the
    integers they read by [safe_integer]. *)

Definition digit_value (radix : N) (c : code_unit) : option N :=
  let d :=
    if (48 <=? c)%N && (c <=? 57)%N then Some (c - 48)%N
    else if (97 <=? c)%N && (c <=? 122)%N then Some (c - 87)%N
    else if (65 <=? c)%N && (c <=? 90)%N then Some (c - 55)%N
    else None in
  match d with
  | Some v => if (v <? radix)%N then Some v else None
  | None => None
  end.

Fixpoint parse_digits (radix : N) (s : jsstring) (acc : option N) : option N :=
  match s with
  | c :: s' =>
      match digit_value radix c with
      | Some d => parse_digits radix s' (Some (radix * default 0%N acc + d)%N)
      | None => acc
      end
  | [] => acc
  end.

(** The sign in front of the digits. *)
Definition read_sign (s : jsstring) : bool * jsstring :=
  match s with
  | c :: r =>
      if (c =? 45)%N then (true, r)
      else if (c =? 43)%N then (false, r)
      else (false, s)
  | [] => (false, s)
  end.

(** The radix: 16 after [0x] or [0X], which is dropped, else 10. *)
Definition read_radix (s : jsstring) : N * jsstring :=
  match s with
  | c :: x :: r =>
      if (c =? 48)%N && ((x =? 120)%N || (x =? 88)%N) then (16%N, r)
      else (10%N, s)
  | _ => (10%N, s)
  end.

Definition parseInt (s : jsstring) : option Z :=
  let '(negative, s2) := read_sign (trimStart s) in
  let '(radix, s3) := read_radix s2 in
  match parse_digits radix s3 None with
  | Some n => Some (if negative : bool then - Z.of_N n else Z.of_N n)
  | None => None
  end.

(** The decimal digits, and the strings that hold none. *)
Definition is_decimal (c : code_unit) : bool := (48 <=? c)%N && (c <=? 57)%N.

(** What the quantity field of the check-out form stores for an input
    text: [parseInt(e.target.value) || 1]. *)
Definition quantityInput (v : jsstring) : CheckoutModal.Change :=
  CheckoutModal.ChangeQuantity (parseInt v).

(** [error.response?.data?.error || fallback], the message the
    mutations' [onError] stores; [None] when the response carries none. *)
Definition errorMessage (fallback : string) (reported : option string) : string :=
  match reported with
  | Some m => if String.eqb m "" then fallback else m
  | None => fallback
  end.

(** ** More of api/inventory.ts and api/checkout.ts *)

Definition getItemDetails (itemId : Z) : Request :=
  apiClient_get (Path ("/api/inventory/" +:+ pretty itemId)) None.

(** The limit defaults to 50. *)
Definition getItemCheckoutHistory (itemId : Z) (limit : option Z) : Request :=
  apiClient_get
    (Path ("/api/checkout/item/" +:+ pretty itemId +:+ "/history?limit="
           +:+ pretty (default 50 limit)))
    None.

(** ** App.tsx: the route [item/:id] *)

Module Routes.

(** The target of the links to an item ([ItemCard], [CheckoutsPage],
    [OverduePage]): [`/item/${item_id}`]. *)
Definition itemLink (id : Z) : string := "/item/" +:+ pretty id.

Fixpoint strip_prefix (p s : jsstring) : option jsstring :=
  match p, s with
  | [], _ => Some s
  | a :: p', b :: s' => if (a =? b)%N then strip_prefix p' s' else None
  | _ :: _, [] => None
  end.

(** The parameter [id] of a path under the route [item/:id]: the one
    segment after [/item/]. The router also accepts a slash at the end
    and other letter case in [item], and decodes percent escapes; none
    of these occurs in the links [itemLink] builds, on which this is
    the router's match. *)
Definition itemParam (pathname : jsstring) : option jsstring :=
  match strip_prefix (lit "/item/") pathname with
  | Some seg =>
      if negb (truthy seg) || existsb (fun c => (c =? 47)%N) seg then None
      else Some seg
  | None => None
  end.

End Routes.

(** ** pages/ItemDetailsPage.tsx: the queries *)

Module ItemDetailsQueries.

(** [parseInt(id || '0')]. *)
Definition itemId (id : option jsstring) : option Z :=
  parseInt match id with
           | Some s => if truthy s then s else lit "0"
           | None => lit "0"
           end.

(** [enabled: !!itemId]: false for [NaN] and for zero. *)
Definition enabled (n : option Z) : bool :=
  match n with
  | Some z => negb (z =? 0)
  | None => false
  end.

(** The requests of the two queries of the page, when they are enabled. *)
Definition queries (id : option jsstring) : list Request :=
  match itemId id with
  | Some z =>
      if enabled (Some z)
      then [getItemDetails z; getItemCheckoutHistory z (Some 20)]
      else []
  | None => []
  end.

End ItemDetailsQueries.

(** ** components/layout/Navbar.tsx *)

Module Navbar.

Definition navLinks : list (jsstring * string) :=
  [ (lit "/", "Dashboard"); (lit "/inventory", "Inventory");
    (lit "/checkouts", "Active Checkouts"); (lit "/overdue", "Overdue") ]%string.

Definition isActive (pathname path : jsstring) : bool :=
  bool_decide (pathname = path).

(** The links rendered as active on a page. *)
Definition activeLinks (pathname : jsstring) : list (jsstring * string) :=
  List.filter (fun l => isActive pathname (fst l)) navLinks.

(** The values of the location select. *)
Definition locations : list jsstring := [lit "san_jose"; lit "3k"; lit "2u"].

End Navbar.

(** ** pages/InventoryPage.tsx *)

Module InventoryPage.

(** The search text, the debounced text the query uses, and the text
    the pending 300 ms timer will store, if a timer is pending. *)
Record State := {
  searchQuery : jsstring;
  debouncedSearch : jsstring;
  timer : option jsstring;
}.

(** After the first render the effect has set a timer for the empty text. *)
Definition initial : State :=
  {| searchQuery := []; debouncedSearch := []; timer := Some [] |}.

Inductive Event :=
| Typed (v : jsstring)
| TimerFired.

(** Typing a new text replaces the timer (the effect's cleanup clears
    the old one); the timer, when it fires, stores its text. *)
Definition step (st : State) (ev : Event) : State :=
  match ev with
  | Typed v =>
      if bool_decide (v = searchQuery st) then st
      else {| searchQuery := v; debouncedSearch := debouncedSearch st;
              timer := Some v |}
  | TimerFired =>
      match timer st with
      | Some v => {| searchQuery := searchQuery st; debouncedSearch := v;
                     timer := None |}
      | None => st
      end
  end.

Definition steps (st : State) (evs : list Event) : State := fold_left step evs st.

(** The [queryFn] of the page. *)
Definition queryFn (currentLocation debouncedSearch : jsstring) : Request :=
  if truthy debouncedSearch
  then Api.searchInventory debouncedSearch (Some currentLocation)
  else Api.getInventory currentLocation None.

End InventoryPage.

(** ** The handlers of CheckinModal.tsx besides [handleSubmit] *)

Module CheckinModalEvents.

Import CheckinModal.

(** [handleClose]; the second component tells whether [onClose] ran. *)
Definition handleClose (st : State) : State * bool :=
  if negb (isPending st) then (resetForm st, true) else (st, false).

Definition onSuccess (st : State) : State :=
  resetForm {| formData := formData st; errors := errors st; isPending := false |}.

Definition onError (msg : string) (st : State) : State :=
  {| formData := formData st;
     errors := {[ "submit"%string := msg ]};
     isPending := false |}.

Inductive Change :=
| ChangeReturnCondition (c : Condition)
| ChangeReturnNotes (v : jsstring).

Definition onChange (c : Change) (fd : FormData) : FormData :=
  match c with
  | ChangeReturnCondition c' =>
      {| returnCondition := c'; returnNotes := returnNotes fd |}
  | ChangeReturnNotes v =>
      {| returnCondition := returnCondition fd; returnNotes := v |}
  end.

End CheckinModalEvents.

(** ** pages/CheckoutsPage.tsx and pages/OverduePage.tsx

    Both pages keep the same state and handlers. The [CheckinModal] is
    rendered only while a checkout is selected, so its state exists
    from the selection to the close and starts afresh each time. The
    requests recorded are the check-ins handed to the mutation. *)

Module CheckoutsPage.

Record State := {
  isCheckinModalOpen : bool;
  selectedCheckout : option ActiveCheckout;
  modal : option CheckinModal.State;
}.

Definition initial : State :=
  {| isCheckinModalOpen := false; selectedCheckout := None; modal := None |}.

Definition handleCheckinClick (checkout : ActiveCheckout) (st : State) : State :=
  {| isCheckinModalOpen := true;
     selectedCheckout := Some checkout;
     modal := Some (default CheckinModal.initial (modal st)) |}.

(** [handleCloseModal]; without a selection the modal is unmounted. *)
Definition handleCloseModal (st : State) : State :=
  {| isCheckinModalOpen := false; selectedCheckout := None; modal := None |}.

Inductive Event :=
| ClickCheckin (checkout : ActiveCheckout)
| Change (c : CheckinModalEvents.Change)
| Submit
| Close
| MutationSuccess
| MutationError (reported : option string).

(** One event: the next state and the requests issued. The events of
    the modal have no effect while it is not mounted. *)
Definition step (st : State) (ev : Event) : State * list Request :=
  match ev, selectedCheckout st, modal st with
  | ClickCheckin c, _, _ => (handleCheckinClick c st, [])
  | Change c, Some _, Some m =>
      ({| isCheckinModalOpen := isCheckinModalOpen st;
          selectedCheckout := selectedCheckout st;
          modal := Some {| CheckinModal.formData :=
                             CheckinModalEvents.onChange c (CheckinModal.formData m);
                           CheckinModal.errors := CheckinModal.errors m;
                           CheckinModal.isPending := CheckinModal.isPending m |} |},
       [])
  | Submit, Some c, Some m =>
      let '(m', reqs) := CheckinModal.handleSubmit c m in
      ({| isCheckinModalOpen := isCheckinModalOpen st;
          selectedCheckout := selectedCheckout st;
          modal := Some m' |}, reqs)
  | Close, Some _, Some m =>
      let '(m', closed) := CheckinModalEvents.handleClose m in
      if closed then (handleCloseModal st, []) else (st, [])
  | MutationSuccess, Some _, Some m => (handleCloseModal st, [])
  | MutationError reported, Some _, Some m =>
      ({| isCheckinModalOpen := isCheckinModalOpen st;
          selectedCheckout := selectedCheckout st;
          modal := Some (CheckinModalEvents.onError
                           (errorMessage "Failed to check in item" reported) m) |},
       [])
  | _, _, _ => (st, [])
  end.

Fixpoint steps (st : State) (evs : list Event) : State * list Request :=
  match evs with
  | [] => (st, [])
  | ev :: evs' =>
      let '(st', r) := step st ev in
      let '(st'', r') := steps st' evs' in
      (st'', r ++ r')
  end.

End CheckoutsPage.


(** A string sent as entered text: not empty, and without white space
    at either end. *)
Definition trimmed_nonblank (s : jsstring) : Prop :=
  s <> [] /\
  (forall c r, s = c :: r -> is_white_space c = false) /\
  (forall c r, rev s = c :: r -> is_white_space c = false).

(** The integers that numbers hold exactly, and print in decimal. *)
Definition safe_integer (z : Z) : Prop := - 2 ^ 53 < z < 2 ^ 53.

(** ** States and examples used in the statements *)

(** The page with the modal open on a form. *)
Definition opened (i : Item) (m : CheckoutModal.State) : ItemDetailsPage.State :=
  {| ItemDetailsPage.item := i; ItemDetailsPage.isCheckoutModalOpen := true;
     ItemDetailsPage.modal := m |}.

(** The debounce: a pending timer holds the text of the search field,
    and without a pending timer the debounced text is that text. *)
Definition debounced (st : InventoryPage.State) : Prop :=
  match InventoryPage.timer st with
  | Some v => v = InventoryPage.searchQuery st
  | None => InventoryPage.debouncedSearch st = InventoryPage.searchQuery st
  end.

(** The modal exists exactly while a checkout is selected. *)
Definition mounted (st : CheckoutsPage.State) : Prop :=
  match CheckoutsPage.selectedCheckout st, CheckoutsPage.modal st with
  | Some _, Some _ => True
  | None, None => True
  | _, _ => False
  end.

(** A checkout of the list, for the examples. *)
Definition loan : ActiveCheckout :=
  {| ac_checkout_id := 42; ac_item_id := 1; ac_quantity := 2;
     ac_ldap := lit "jdoe"; ac_is_overdue := false; ac_days_overdue := 0 |}.

(** ** The axios instance and the responses

    [apiClient] is the axios instance that api/client.ts creates; the
    README sets its base URL through [VITE_API_BASE_URL], to
    [http://localhost:5000]. Axios sends [get(url, config)] to the URL
    it builds from the base URL and [url], with the query of
    [config.params] and the data of [config.data]. *)

Module Axios.

Definition is_letter (c : ascii) : bool :=
  let n := N_of_ascii c in
  ((65 <=? n) && (n <=? 90) || (97 <=? n) && (n <=? 122))%N.

Definition is_scheme_char (c : ascii) : bool :=
  let n := N_of_ascii c in
  is_letter c || ((48 <=? n) && (n <=? 57))%N
  || Ascii.eqb c "+" || Ascii.eqb c "-" || Ascii.eqb c ".".

(** What follows [[a-z\d+\-.]*:] at the start of a string. *)
Fixpoint after_scheme (s : string) : option string :=
  match s with
  | String c s' =>
      if Ascii.eqb c ":" then Some s'
      else if is_scheme_char c then after_scheme s'
      else None
  | EmptyString => None
  end.

(** [isAbsoluteURL]: the test [/^([a-z][a-z\d+\-.]*:)?\/\//i]. *)
Definition isAbsoluteURL (url : string) : bool :=
  String.prefix "//" url
  || match url with
     | String c s' =>
         is_letter c &&
         match after_scheme s' with
         | Some r => String.prefix "//" r
         | None => false
         end
     | EmptyString => false
     end.

(** [s.replace(/\/?\/$/, '')]: one slash at the end, or two, are dropped. *)
Definition dropEndSlashes (s : string) : string :=
  match rev (list_ascii_of_string s) with
  | a :: r =>
      if Ascii.eqb a "/" then
        match r with
        | b :: r' =>
            if Ascii.eqb b "/" then string_of_list_ascii (rev r')
            else string_of_list_ascii (rev r)
        | [] => EmptyString
        end
      else s
  | [] => s
  end.

(** [s.replace(/^\/+/, '')]: the slashes in front are dropped. *)
Fixpoint dropStartSlashes (s : string) : string :=
  match s with
  | String c s' => if Ascii.eqb c "/" then dropStartSlashes s' else s
  | EmptyString => EmptyString
  end.

Definition combineURLs (baseURL relativeURL : string) : string :=
  if String.eqb relativeURL "" then baseURL
  else dropEndSlashes baseURL +:+ "/" +:+ dropStartSlashes relativeURL.

(** [buildFullPath]; an empty base URL is falsy. *)
Definition buildFullPath (baseURL requestedURL : string) : string :=
  if negb (String.eqb baseURL "") && negb (isAbsoluteURL requestedURL)
  then combineURLs baseURL requestedURL
  else requestedURL.

(** The URL a request goes to, up to its query string. *)
Definition fullPath (baseURL : string) (r : Request) : string :=
  buildFullPath baseURL (url_path (url r)).

(** The value of a property of an object, [undefined] being [None]. *)
Fixpoint object_get (k : string) (o : object) : option value :=
  match o with
  | [] => None
  | (k', v) :: o' => if String.eqb k' k then v else object_get k o'
  end.

(** [config.params] and [config.data] of a [get]. *)
Definition request_params (r : Request) : option value :=
  match method r with
  | GET => payload r ≫= object_get "params"
  | POST => None
  end.

Definition request_data (r : Request) : option value :=
  match method r with
  | GET => payload r ≫= object_get "data"
  | POST => None
  end.

(** The response of the client, of which the sources read [data]. *)
Record Response (T : Type) := {
  data : T;
  status : Z;
}.
Arguments data {T} _.
Arguments status {T} _.

End Axios.

(** [ActiveCheckoutsResponse] of types/index.ts. *)
Record ActiveCheckoutsResponse := {
  acr_success : bool;
  total_active_checkouts : Z;
  checkouts : list ActiveCheckout;
}.

(** The functions of api/checkout.ts await the client and return
    [response.data]; when the client rejects, [None], so does the call. *)
Module Await.

Definition getActiveCheckouts
    (client : Request -> option (Axios.Response ActiveCheckoutsResponse))
    (data : option CheckinFormData) : option ActiveCheckoutsResponse :=
  Axios.data <$> client (Api.getActiveCheckouts data).

End Await.

(** * Properties *)

(** ** Strings *)

Lemma truthy_false (s : jsstring) : truthy s = false <-> s = [].
Proof. destruct s; simpl; split; congruence. Qed.

Lemma truthy_true (s : jsstring) : truthy s = true <-> s <> [].
Proof. destruct s; simpl; split; congruence. Qed.

(** [trimStart] leaves no white space in front. *)
Lemma trimStart_head (s : jsstring) (c : code_unit) (r : jsstring) :
  trimStart s = c :: r -> is_white_space c = false.
Proof.
  induction s as [|a s IH]; simpl; [discriminate|].
  destruct (is_white_space a) eqn:E; [exact IH|].
  intros [= <- _]. exact E.
Qed.

(** A string of white space only trims to the empty string. *)
Lemma trimStart_white (s : jsstring) :
  forallb is_white_space s = true -> trimStart s = [].
Proof.
  induction s as [|a s IH]; simpl; [reflexivity|].
  destruct (is_white_space a); simpl; [exact IH | discriminate].
Qed.

Lemma trimStart_nil (s : jsstring) :
  trimStart s = [] -> forallb is_white_space s = true.
Proof.
  induction s as [|a s IH]; simpl; [reflexivity|].
  destruct (is_white_space a); simpl; [exact IH | discriminate].
Qed.

(** A string is blank after trimming exactly when it holds white space
    only. *)
Lemma trim_nil_iff (s : jsstring) :
  trim s = [] <-> forallb is_white_space s = true.
Proof.
  unfold trim, trimEnd. split.
  - intros H. apply (f_equal (@rev code_unit)) in H.
    rewrite rev_involutive in H. simpl in H.
    apply trimStart_nil in H.
    assert (forallb is_white_space (trimStart s) = true) as H'.
    { rewrite forallb_forall in H |- *. intros x Hx. apply H.
      by apply -> in_rev. }
    clear H. rename H' into H.
    destruct (trimStart s) as [|c r] eqn:E; [by apply trimStart_nil|].
    apply trimStart_head in E. simpl in H. by rewrite E in H.
  - intros H. by rewrite (trimStart_white _ H).
Qed.

(** ** Numbers: the product [quantity_total * 0.2] *)

Lemma digits2_pos_size (p : positive) : digits2_pos p = Pos.size p.
Proof. induction p; simpl; congruence. Qed.

Lemma size_bounds (p : positive) :
  2 ^ (Z.pos (Pos.size p) - 1) <= Z.pos p < 2 ^ Z.pos (Pos.size p).
Proof.
  split.
  - pose proof (Pos.size_le p) as H.
    assert (2 ^ Z.pos (Pos.size p) <= 2 * Z.pos p) as H'.
    { change (2 * Z.pos p) with (Z.pos p~0). rewrite <- Pos2Z.inj_pow. lia. }
    replace (Z.pos (Pos.size p)) with (Z.succ (Z.pos (Pos.size p) - 1)) in H' by lia.
    rewrite Z.pow_succ_r in H' by lia. lia.
  - pose proof (Pos.size_gt p) as H. rewrite <- Pos2Z.inj_pow. lia.
Qed.

Lemma size_unique (p : positive) (d : Z) :
  2 ^ (d - 1) <= Z.pos p < 2 ^ d -> Z.pos (Pos.size p) = d.
Proof.
  intros [Hl Hu]. pose proof (size_bounds p) as [Hl' Hu'].
  assert (0 < d) as Hd.
  { destruct (Z.ltb_spec 0 d); [done|].
    assert (2 ^ d <= 2 ^ 0) by (apply Z.pow_le_mono_r; lia). simpl in *; lia. }
  destruct (Z.lt_trichotomy (Z.pos (Pos.size p)) d) as [H|[H|H]]; [|done|].
  - assert (2 ^ Z.pos (Pos.size p) <= 2 ^ (d - 1)) by (apply Z.pow_le_mono_r; lia). lia.
  - assert (2 ^ d <= 2 ^ (Z.pos (Pos.size p) - 1)) by (apply Z.pow_le_mono_r; lia). lia.
Qed.


Lemma shifted_0 (P : Z) : shifted P 0 (shr_record_of_loc P loc_Exact).
Proof.
  unfold shifted, loc_of. simpl. rewrite Z.div_1_r, Z.mod_1_r. done.
Qed.

Lemma shifted_step (P k : Z) (mrs : shr_record) :
  0 <= P -> 0 <= k -> shifted P k mrs -> shifted P (k + 1) (shr_1 mrs).
Proof.
  intros HP Hk [Hm Hl].
  assert (0 < 2 ^ k) as Hpow by (apply Z.pow_pos_nonneg; lia).
  assert (2 ^ (k + 1) = 2 ^ k * 2) as E by (rewrite Z.pow_add_r; lia).
  assert (P / 2 ^ (k + 1) = P / 2 ^ k / 2) as Ed
    by (rewrite E, Z.div_div; lia).
  assert (P mod 2 ^ (k + 1) = P mod 2 ^ k + 2 ^ k * ((P / 2 ^ k) mod 2)) as Er
    by (rewrite E; apply Z.rem_mul_r; lia).
  pose proof (Z.mod_pos_bound P (2 ^ k) Hpow) as Hr.
  pose proof (Z.div_pos P (2 ^ k) HP Hpow) as Hq.
  unfold shifted, loc_of in *. rewrite Ed, Er, E. clear E Ed Er.
  destruct mrs as [m r s]. simpl in Hm, Hl. subst m.
  set (q := P / 2 ^ k) in *. set (rm := P mod 2 ^ k) in *.
  assert (s || r = negb (rm =? 0)) as Hs.
  { destruct (Z.eqb_spec rm 0); destruct r, s; simpl in *; congruence. }
  assert (Hcase : (r || s = false /\ rm = 0) \/ (r || s = true /\ 0 < rm)).
  { destruct (Z.eqb_spec rm 0); destruct r, s; simpl in *; try discriminate; 
      (left; split; [done|lia]) || (right; split; [done|lia]). }
  clear Hl Hs.
  pose proof (Z.div_mod q 2 ltac:(lia)) as Hdm.
  pose proof (Z.mod_pos_bound q 2 ltac:(lia)) as Hmd.
  set (d := q / 2) in *. set (md := q mod 2) in *.
  clearbody d md q rm.
  assert (Hgoal : forall m' r',
    m' = d -> r' = negb (md =? 0) ->
    shr_m {| shr_m := m'; shr_r := r'; shr_s := r || s |} = d /\
    loc_of_shr_record {| shr_m := m'; shr_r := r'; shr_s := r || s |} =
      (if rm + 2 ^ k * md =? 0 then loc_Exact
       else loc_Inexact (2 * (rm + 2 ^ k * md) ?= 2 ^ k * 2))).
  { intros m' r' -> ->. split; [done|]. simpl.
    assert (md = 0 \/ md = 1) as [-> | ->] by lia; simpl;
      destruct Hcase as [[-> Hz]|[-> Hz]].
    - subst rm. by rewrite Z.mul_0_r.
    - rewrite Z.mul_0_r, Z.add_0_r.
      destruct (Z.eqb_spec rm 0); [lia|]. f_equal. symmetry.
      apply Z.compare_lt_iff. lia.
    - subst rm. destruct (Z.eqb_spec (0 + 2 ^ k * 1) 0); [lia|]. f_equal. symmetry.
      apply Z.compare_eq_iff. lia.
    - destruct (Z.eqb_spec (rm + 2 ^ k * 1) 0); [lia|]. f_equal. symmetry.
      apply Z.compare_gt_iff. lia. }
  destruct q as [|[q'|q'|]|q']; try lia; cbn [shr_1]; apply Hgoal;
    try lia; assert (md = 0 \/ md = 1) as [-> | ->] by lia; try reflexivity; lia.
Qed.

Lemma shifted_iter (P : Z) (n : positive) (k : Z) (mrs : shr_record) :
  0 <= P -> 0 <= k -> shifted P k mrs ->
  shifted P (k + Z.pos n) (SpecFloat.iter_pos shr_1 n mrs).
Proof.
  intros HP. revert k mrs. induction n as [n IH|n IH|]; intros k mrs Hk H; simpl.
  - replace (k + Z.pos n~1) with (k + 1 + Z.pos n + Z.pos n) by lia.
    apply IH; [lia|]. apply IH; [lia|]. by apply shifted_step.
  - replace (k + Z.pos n~0) with (k + Z.pos n + Z.pos n) by lia.
    apply IH; [lia|]. by apply IH.
  - by apply shifted_step.
Qed.

Lemma iter_xO (p s : positive) :
  Z.pos (Pos.iter xO p s) = Z.pos p * 2 ^ Z.pos s.
Proof.
  induction s as [|s IH] using Pos.peano_ind.
  - simpl. lia.
  - rewrite Pos.iter_succ, Pos2Z.inj_succ, Z.pow_succ_r by lia.
    rewrite Pos2Z.inj_xO, IH. lia.
Qed.

Lemma digits_53 (m : positive) :
  2 ^ 52 <= Z.pos m < 2 ^ 53 -> Z.pos (digits2_pos m) = 53.
Proof. intros H. rewrite digits2_pos_size. by apply size_unique. Qed.

Lemma shr_fexp_canonical (m : positive) (e : Z) (l : SpecFloat.location) :
  2 ^ 52 <= Z.pos m < 2 ^ 53 -> -1074 <= e ->
  shr_fexp prec emax (Z.pos m) e l = (shr_record_of_loc (Z.pos m) l, e).
Proof.
  intros Hm He. unfold shr_fexp, Zdigits2. rewrite (digits_53 m Hm).
  unfold fexp, emin, prec, emax.
  replace (Z.max (53 + e - 53) (3 - 1024 - 53) - e) with 0 by lia.
  reflexivity.
Qed.

Lemma round_canonical (m : positive) (e : Z) :
  2 ^ 52 <= Z.pos m < 2 ^ 53 -> -1074 <= e <= 971 ->
  binary_round_aux prec emax false (Z.pos m) e loc_Exact = S754_finite false m e.
Proof.
  intros Hm He. unfold binary_round_aux.
  rewrite shr_fexp_canonical by (done || lia). cbn [shr_record_of_loc shr_m loc_of_shr_record round_nearest_even].
  rewrite shr_fexp_canonical by (done || lia). cbn [shr_record_of_loc shr_m].
  unfold prec, emax. by destruct (Z.leb_spec e (1024 - 53)); [|lia].
Qed.

(** The number of a positive safe integer: the integer itself, with a
    mantissa of 53 bits. *)
Lemma of_Z_pos (z : Z) :
  0 < z < 2 ^ 53 ->
  exists (m : positive) (k : Z),
    of_Z z = S754_finite false m (- k) /\
    0 <= k <= 52 /\ Z.pos m = z * 2 ^ k /\ 2 ^ 52 <= Z.pos m < 2 ^ 53.
Proof.
  intros Hz. destruct z as [|p|p]; try lia.
  unfold of_Z, binary_normalize, binary_round.
  pose proof (size_bounds p) as Hs. rewrite digits2_pos_size.
  set (d := Z.pos (Pos.size p)) in *.
  assert (1 <= d <= 53) as Hd.
  { split; [lia|]. destruct (Z.leb_spec d 53); [done|].
    assert (2 ^ 53 <= 2 ^ (d - 1)) by (apply Z.pow_le_mono_r; lia). lia. }
  unfold fexp, emin, prec, emax.
  replace (Z.max (d + 0 - 53) (3 - 1024 - 53)) with (d - 53) by lia.
  unfold shl_align.
  destruct (d - 53 - 0) as [|s|s] eqn:Es; try lia.
  - assert (d = 53) as Hd53 by lia. rewrite Hd53 in *.
    exists p, 0. rewrite round_canonical by (simpl in *; lia).
    repeat split; simpl in *; lia.
  - assert (Z.pos s = 53 - d) as Hsd by lia.
    pose proof (iter_xO p s) as Hi.
    assert (2 ^ (d - 1) * 2 ^ Z.pos s = 2 ^ 52) as E1.
    { rewrite <- Z.pow_add_r by lia. f_equal. lia. }
    assert (2 ^ d * 2 ^ Z.pos s = 2 ^ 53) as E2.
    { rewrite <- Z.pow_add_r by lia. f_equal. lia. }
    assert (0 < 2 ^ Z.pos s) as Hpos by (apply Z.pow_pos_nonneg; lia).
    exists (Pos.iter xO p s), (Z.pos s).
    rewrite round_canonical by first [rewrite Hi; split; nia | lia].
    replace (d - 53) with (- Z.pos s) by lia.
    repeat split; try lia; rewrite Hi; nia.
Qed.

Lemma round_nearest (P n : Z) :
  0 <= P -> 0 <= n ->
  let m2 := round_nearest_even (P / 2 ^ n) (loc_of P n) in
  (m2 = P / 2 ^ n /\ 2 * (P mod 2 ^ n) <= 2 ^ n) \/
  (m2 = P / 2 ^ n + 1 /\ 2 ^ n <= 2 * (P mod 2 ^ n)).
Proof.
  intros HP Hn. cbv zeta. unfold loc_of.
  assert (0 < 2 ^ n) as Hpow by (apply Z.pow_pos_nonneg; lia).
  pose proof (Z.mod_pos_bound P (2 ^ n) Hpow) as Hr.
  destruct (Z.eqb_spec (P mod 2 ^ n) 0) as [E|E]; simpl.
  - left. split; [done | lia].
  - destruct (Z.compare_spec (2 * (P mod 2 ^ n)) (2 ^ n)).
    + destruct (Z.even (P / 2 ^ n)); [left | right]; split; (done || lia).
    + left. split; [done | lia].
    + right. split; [done | lia].
Qed.

(** Rounding a product that is [n] bits too long: the result is the
    nearest 53-bit mantissa, renormalised when the rounding carries. *)
Lemma round_shift (P : positive) (e n : Z) :
  n = Z.pos (Pos.size P) - 53 -> 0 < n -> -1074 <= e + n <= 970 ->
  exists (m' : positive) (e' : Z),
    binary_round_aux prec emax false (Z.pos P) e loc_Exact = S754_finite false m' e' /\
    2 ^ 52 <= Z.pos m' < 2 ^ 53 /\ 0 <= e' - (e + n) <= 1 /\
    Z.pos m' * 2 ^ (e' - (e + n)) =
      round_nearest_even (Z.pos P / 2 ^ n) (loc_of (Z.pos P) n).
Proof.
  intros Hn Hpos He. pose proof (size_bounds P) as Hs.
  set (d := Z.pos (Pos.size P)) in *.
  unfold binary_round_aux.
  assert (shr_fexp prec emax (Z.pos P) e loc_Exact =
          (SpecFloat.iter_pos shr_1 (Z.to_pos n)
             (shr_record_of_loc (Z.pos P) loc_Exact), e + n)) as ->.
  { unfold shr_fexp, Zdigits2. rewrite digits2_pos_size. fold d.
    unfold fexp, emin, prec, emax.
    replace (Z.max (d + e - 53) (3 - 1024 - 53) - e) with n by lia.
    destruct n; try lia. reflexivity. }
  pose proof (shifted_iter (Z.pos P) (Z.to_pos n) 0 _ ltac:(lia) ltac:(lia)
                (shifted_0 (Z.pos P))) as [Hm Hl].
  rewrite Z.add_0_l, Z2Pos.id in Hm, Hl by lia.
  destruct (SpecFloat.iter_pos shr_1 (Z.to_pos n) _) as [m1 r s] eqn:Eit.
  cbn [shr_m] in Hm |- *. rewrite Hl, Hm. clear Eit Hl Hm m1 r s.
  assert (0 < 2 ^ n) as Hpow by (apply Z.pow_pos_nonneg; lia).
  assert (2 ^ 52 * 2 ^ n = 2 ^ (d - 1)) as E1
    by (rewrite <- Z.pow_add_r by lia; f_equal; lia).
  assert (2 ^ 53 * 2 ^ n = 2 ^ d) as E2
    by (rewrite <- Z.pow_add_r by lia; f_equal; lia).
  assert (2 ^ 52 <= Z.pos P / 2 ^ n < 2 ^ 53) as Hm1.
  { split.
    - apply Z.div_le_lower_bound; [lia|]. rewrite Z.mul_comm. lia.
    - apply Z.div_lt_upper_bound; [lia|]. rewrite Z.mul_comm. lia. }
  destruct (round_nearest (Z.pos P) n ltac:(lia) ltac:(lia)) as [[Hr _]|[Hr _]];
    cbv zeta in Hr; rewrite Hr; clear Hr.
  - destruct (Z.pos P / 2 ^ n) as [|m1|m1] eqn:Em; try (simpl in Hm1; lia).
    rewrite shr_fexp_canonical by (done || lia).
    cbn [shr_record_of_loc shr_m]. exists m1, (e + n).
    unfold prec, emax. destruct (Z.leb_spec (e + n) (1024 - 53)); [|lia].
    replace (e + n - (e + n)) with 0 by lia. rewrite Z.mul_1_r.
    repeat split; (done || lia).
  - destruct (Z.eq_dec (Z.pos P / 2 ^ n + 1) (2 ^ 53)) as [Ec|Ec].
    + rewrite Ec. exists (Z.to_pos (2 ^ 52)), (e + n + 1).
      unfold shr_fexp. change (Zdigits2 (2 ^ 53)) with 54.
      unfold fexp, emin, prec, emax.
      replace (Z.max (54 + (e + n) - 53) (3 - 1024 - 53) - (e + n)) with 1 by lia.
      cbn [shr shr_record_of_loc SpecFloat.iter_pos]. 
      change (shr_1 {| shr_m := 2 ^ 53; shr_r := false; shr_s := false |})
        with {| shr_m := 2 ^ 52; shr_r := false; shr_s := false |}.
      cbn [shr_m]. change (2 ^ 52) with (Z.pos (Z.to_pos (2 ^ 52))) at 1.
      cbv iota beta.
      destruct (Z.leb_spec (e + n + 1) (1024 - 53)); [|lia].
      replace (e + n + 1 - (e + n)) with 1 by lia.
      repeat split; try done; try lia.
    + destruct (Z.pos P / 2 ^ n + 1) as [|m2|m2] eqn:Em; try lia.
      rewrite shr_fexp_canonical by (lia || split; lia).
      cbn [shr_record_of_loc shr_m]. exists m2, (e + n).
      unfold prec, emax. destruct (Z.leb_spec (e + n) (1024 - 53)); [|lia].
      replace (e + n - (e + n)) with 0 by lia. rewrite Z.mul_1_r.
      repeat split; (done || lia).
Qed.

Lemma lt_finite (m1 m2 : positive) (e1 e2 C : Z) :
  2 ^ 52 <= Z.pos m1 < 2 ^ 53 -> 2 ^ 52 <= Z.pos m2 < 2 ^ 53 ->
  0 <= e1 + C -> 0 <= e2 + C ->
  lt (S754_finite false m1 e1) (S754_finite false m2 e2) =
  (Z.pos m1 * 2 ^ (e1 + C) <? Z.pos m2 * 2 ^ (e2 + C)).
Proof.
  intros H1 H2 HC1 HC2. unfold lt, SFltb, SFcompare.
  assert (0 < 2 ^ (e1 + C)) as Hp1 by (apply Z.pow_pos_nonneg; lia).
  assert (0 < 2 ^ (e2 + C)) as Hp2 by (apply Z.pow_pos_nonneg; lia).
  destruct (Z.compare_spec e1 e2) as [E|E|E].
  - subst e2. change (Pos.compare_cont Eq m1 m2) with (Pos.compare m1 m2).
    rewrite Pos2Z.inj_compare.
    destruct (Z.compare_spec (Z.pos m1) (Z.pos m2));
      destruct (Z.ltb_spec (Z.pos m1 * 2 ^ (e1 + C)) (Z.pos m2 * 2 ^ (e1 + C)));
      try done; nia.
  - assert (2 ^ (e2 + C) = 2 ^ (e1 + C) * 2 ^ (e2 - e1)) as Ep
      by (rewrite <- Z.pow_add_r by lia; f_equal; lia).
    assert (2 ^ 1 <= 2 ^ (e2 - e1)) by (apply Z.pow_le_mono_r; lia).
    destruct (Z.ltb_spec (Z.pos m1 * 2 ^ (e1 + C)) (Z.pos m2 * 2 ^ (e2 + C)));
      [done|]. rewrite Ep in *. change (2 ^ 1) with 2 in *. nia.
  - assert (2 ^ (e1 + C) = 2 ^ (e2 + C) * 2 ^ (e1 - e2)) as Ep
      by (rewrite <- Z.pow_add_r by lia; f_equal; lia).
    assert (2 ^ 1 <= 2 ^ (e1 - e2)) by (apply Z.pow_le_mono_r; lia).
    destruct (Z.ltb_spec (Z.pos m1 * 2 ^ (e1 + C)) (Z.pos m2 * 2 ^ (e2 + C)));
      [|done]. rewrite Ep in *. change (2 ^ 1) with 2 in *. nia.
Qed.

Lemma mul_0_2 (mt : positive) (kt : Z) :
  mul (S754_finite false mt (- kt)) lit_0_2 =
  binary_round_aux prec emax false (Z.pos (mt * 7205759403792794)) (- kt + -55) loc_Exact.
Proof. reflexivity. Qed.

(** On safe integers the comparison with the floating product is the
    exact comparison with one fifth. *)
Lemma lt_fifth_exact (a t : Z) :
  0 <= a < 2 ^ 53 -> 0 <= t < 2 ^ 53 ->
  lt (of_Z a) (mul (of_Z t) lit_0_2) = (5 * a <? t).
Proof.
  intros Ha Ht.
  destruct (Z.eq_dec t 0) as [->|Ht0].
  { destruct (Z.eq_dec a 0) as [->|Ha0].
    - reflexivity.
    - destruct (of_Z_pos a ltac:(lia)) as (ma & ka & -> & _).
      change (mul (of_Z 0) lit_0_2) with (S754_zero false).
      by destruct (Z.ltb_spec (5 * a) 0); [lia|]. }
  destruct (of_Z_pos t ltac:(lia)) as (mt & kt & -> & Hkt & Emt & Hmt).
  rewrite mul_0_2.
  set (P := (mt * 7205759403792794)%positive).
  assert (Z.pos P = Z.pos mt * 7205759403792794) as EP by (unfold P; lia).
  pose proof (size_bounds P) as Hs.
  set (d := Z.pos (Pos.size P)) in *.
  clearbody P.
  assert (d = 105 \/ d = 106) as Hd.
  { assert (2 ^ 104 <= Z.pos P < 2 ^ 106) as HP by (rewrite EP; lia).
    assert (104 < d).
    { destruct (Z.ltb_spec 104 d); [done|].
      assert (2 ^ d <= 2 ^ 104) by (apply Z.pow_le_mono_r; lia). lia. }
    assert (d - 1 < 106).
    { destruct (Z.ltb_spec (d - 1) 106); [done|].
      assert (2 ^ 106 <= 2 ^ (d - 1)) by (apply Z.pow_le_mono_r; lia). lia. }
    lia. }
  destruct (round_shift P (- kt + -55) (d - 53) eq_refl ltac:(lia) ltac:(lia))
    as (m' & e' & -> & Hm' & He' & Ev).
  destruct (round_nearest (Z.pos P) (d - 53) ltac:(lia) ltac:(lia)) as [[Hr Hh]|[Hr Hh]];
    cbv zeta in Hr; rewrite Hr in Ev; clear Hr.
  all: assert (0 < 2 ^ kt) as HK by (apply Z.pow_pos_nonneg; lia).
  all: assert (2 ^ kt <= 2 ^ 52) as HK' by (apply Z.pow_le_mono_r; lia).
  all: assert (0 < 2 ^ (d - 53)) as HN by (apply Z.pow_pos_nonneg; lia).
  all: pose proof (Z.div_mod (Z.pos P) (2 ^ (d - 53)) ltac:(lia)) as Hdm.
  all: pose proof (Z.mod_pos_bound (Z.pos P) (2 ^ (d - 53)) HN) as Hrm.
  all: destruct (Z.eq_dec a 0) as [->|Ha0];
    [ change (of_Z 0) with (S754_zero false);
      by destruct (Z.ltb_spec (5 * 0) t); [|lia] |].
  all: destruct (of_Z_pos a ltac:(lia)) as (ma & ka & -> & Hka & Ema & Hma).
  all: rewrite (lt_finite ma m' (- ka) e' 107) by (done || lia).
  all: assert (0 < 2 ^ (52 - kt)) as HK2 by (apply Z.pow_pos_nonneg; lia).
  all: assert (Z.pos ma * 2 ^ (- ka + 107) = a * 2 ^ kt * 2 ^ 55 * 2 ^ (52 - kt)) as ->
      by (rewrite Ema, <- !Z.mul_assoc, <- !Z.pow_add_r by lia; do 2 f_equal; lia).
  all: assert (Z.pos m' * 2 ^ (e' + 107) =
               Z.pos m' * 2 ^ (e' - (- kt + -55 + (d - 53))) *
               2 ^ (d - 53) * 2 ^ (52 - kt)) as ->
      by (rewrite <- !Z.mul_assoc, <- !Z.pow_add_r by lia; do 2 f_equal; lia).
  all: rewrite Ev; clear Ev He' Hm' m' e' Hma Ema Hka ma ka.
  all: clearbody d.
  all: rewrite EP in Hs, Hh, Hdm, Hrm |- *; clear EP P.
  all: rewrite Emt in Hs, Hh, Hdm, Hrm, Hmt |- *; clear Emt mt.
  all: set (K := 2 ^ kt) in *; set (K2 := 2 ^ (52 - kt)) in *.
  all: set (m1 := (t * K * 7205759403792794) / 2 ^ (d - 53)) in *.
  all: set (rm := (t * K * 7205759403792794) mod 2 ^ (d - 53)) in *.
  all: clearbody m1 rm K K2.
  all: assert (HAK : 0 < a * K) by (apply Z.mul_pos_pos; lia).
  all: assert (Hord : 5 * a < t /\ 5 * (a * K) + K <= t * K \/
                      t <= 5 * a /\ t * K <= 5 * (a * K)).
  1,3: destruct (Z.lt_ge_cases (5 * a) t) as [Hlt|Hge]; [left|right];
    (split; [done|]);
    [ pose proof (Z.mul_le_mono_nonneg_r (5 * a + 1) t K ltac:(lia) ltac:(lia)); lia
    | pose proof (Z.mul_le_mono_nonneg_r t (5 * a) K ltac:(lia) ltac:(lia)); lia ].
  all: set (AK := a * K) in *; set (TK := t * K) in *.
  all: clearbody AK TK.
  all: match goal with
       | |- (?x * ?k <? ?y * ?k) = _ =>
           assert ((x * k <? y * k) = (x <? y)) as ->
             by (destruct (Z.ltb_spec x y) as [Hxy|Hxy],
                          (Z.ltb_spec (x * k) (y * k)) as [Hk|Hk];
                 try done; exfalso;
                 [ apply (Z.mul_lt_mono_pos_r k x y HK2) in Hxy; lia
                 | apply (Z.mul_le_mono_nonneg_r y x k) in Hxy; lia ])
       end.
  all: clear K2 HK2.
  all: destruct Hd as [-> | ->].
  all: change (2 ^ (105 - 53)) with 4503599627370496 in *.
  all: change (2 ^ (106 - 53)) with 9007199254740992 in *.
  all: change (2 ^ (105 - 1)) with 20282409603651670423947251286016 in *.
  all: change (2 ^ (106 - 1)) with 40564819207303340847894502572032 in *.
  all: change (2 ^ 105) with 40564819207303340847894502572032 in *.
  all: change (2 ^ 106) with 81129638414606681695789005144064 in *.
  all: change (2 ^ 52) with 4503599627370496 in *.
  all: change (2 ^ 53) with 9007199254740992 in *.
  all: change (2 ^ 55) with 36028797018963968 in *.
  all: destruct Hord as [[Hlt Hord]|[Hge Hord]].
  all: match goal with
       | |- (?x <? ?y) = (?u <? ?v) =>
           destruct (Z.ltb_spec x y), (Z.ltb_spec u v); try done; exfalso
       end.
  all: lia.
Qed.

(** ** The check-out form *)

Section CheckoutForm.

Import CheckoutModal.

Variable item : Item.

Lemma newErrors_ldap (fd : FormData) :
  newErrors item fd !! "ldap"%string =
  if truthy (trim (ldap fd)) then None
  else Some "LDAP username is required"%string.
Proof.
  unfold newErrors.
  destruct (truthy (trim (ldap fd))); simpl;
    destruct (quantity fd <? 1); [| destruct (quantity_available item <? quantity fd) | |
    destruct (quantity_available item <? quantity fd)];
    by simplify_map_eq.
Qed.

Lemma newErrors_quantity (fd : FormData) :
  newErrors item fd !! "quantity"%string =
  if quantity fd <? 1 then Some "Quantity must be at least 1"%string
  else if quantity_available item <? quantity fd
  then Some ("Only " +:+ pretty (quantity_available item) +:+ " available")%string
  else None.
Proof.
  unfold newErrors.
  destruct (truthy (trim (ldap fd))); simpl;
    destruct (quantity fd <? 1); [| destruct (quantity_available item <? quantity fd) | |
    destruct (quantity_available item <? quantity fd)];
    by simplify_map_eq.
Qed.

(** Only the two fields are ever reported by [validate]. *)
Lemma newErrors_keys (fd : FormData) (k : string) :
  is_Some (newErrors item fd !! k) -> k = "ldap"%string \/ k = "quantity"%string.
Proof.
  unfold newErrors.
  destruct (truthy (trim (ldap fd))); simpl;
    destruct (quantity fd <? 1); [| destruct (quantity_available item <? quantity fd) | |
    destruct (quantity_available item <? quantity fd)];
    intros [v Hv];
    repeat (apply lookup_insert_Some in Hv as [[<- _]|[_ Hv]]; [tauto|]);
    by rewrite lookup_empty in Hv.
Qed.

Lemma ldap_error_iff (fd : FormData) :
  is_Some (newErrors item fd !! "ldap"%string) <-> ldap_blank fd.
Proof.
  rewrite newErrors_ldap. unfold ldap_blank.
  destruct (trim (ldap fd)); simpl; split.
  - done.
  - by eexists.
  - by intros [? ?].
  - done.
Qed.

Lemma quantity_error_iff (fd : FormData) :
  is_Some (newErrors item fd !! "quantity"%string) <-> quantity_refused item fd.
Proof.
  rewrite newErrors_quantity. unfold quantity_refused.
  destruct (Z.ltb_spec (quantity fd) 1);
    [| destruct (Z.ltb_spec (quantity_available item) (quantity fd))];
    split; intros H'; try (by eexists); try tauto; try lia.
  by destruct H'.
Qed.

Lemma newErrors_empty_iff (fd : FormData) :
  newErrors item fd = ∅ <-> ~ ldap_blank fd /\ ~ quantity_refused item fd.
Proof.
  rewrite <- ldap_error_iff, <- quantity_error_iff. split.
  - intros ->. rewrite !lookup_empty. split; by intros [? ?].
  - intros [Hl Hq]. apply map_empty. intros k.
    destruct (newErrors item fd !! k) eqn:E; [|done].
    destruct (newErrors_keys fd k) as [-> | ->]; [by eexists | |];
      [destruct Hl | destruct Hq]; by eexists.
Qed.

Lemma validate_true_iff (st : State) :
  snd (validate item st) = true <->
  ~ ldap_blank (formData st) /\ ~ quantity_refused item (formData st).
Proof.
  unfold validate. simpl. rewrite Nat.eqb_eq, map_size_empty_iff.
  apply newErrors_empty_iff.
Qed.

Lemma validate_errors (st : State) :
  errors (fst (validate item st)) = newErrors item (formData st).
Proof. reflexivity. Qed.

Lemma handleSubmit_errors (st : State) :
  errors (fst (handleSubmit item st)) = newErrors item (formData st).
Proof.
  unfold handleSubmit. destruct (validate item st) as [st' ok] eqn:E.
  assert (errors st' = newErrors item (formData st)) as <-
    by (by rewrite <- validate_errors, E).
  by destruct ok.
Qed.

Lemma handleSubmit_refused (st : State) :
  snd (validate item st) = false -> snd (handleSubmit item st) = [].
Proof.
  unfold handleSubmit. destruct (validate item st) as [st' ok]. simpl.
  by intros ->.
Qed.

Lemma handleSubmit_accepted (st : State) :
  snd (validate item st) = true ->
  snd (handleSubmit item st) = [Api.checkoutItem (submitted item (formData st))].
Proof.
  unfold handleSubmit. destruct (validate item st) as [st' ok] eqn:E. simpl.
  intros ->. simpl. do 3 f_equal.
  unfold validate in E. by injection E as <- _.
Qed.

End CheckoutForm.

(** C3: submitting the check-out form with a quantity below one, a
    quantity above the item's stock, or an LDAP field that is blank
    after trimming sends no request ([validate] answers [false] and the
    mutation is not invoked) and records an error under the name of
    each failing field; when none of the three holds, [validate]
    answers [true], no error is recorded and the check-out request is
    sent. *)
Theorem C3_checkout_form_validation (item : Item) (st : CheckoutModal.State) :
  let fd := CheckoutModal.formData st in
  let ok := snd (CheckoutModal.validate item st) in
  let after := fst (CheckoutModal.handleSubmit item st) in
  let sent := snd (CheckoutModal.handleSubmit item st) in
  (ldap_blank fd \/ quantity_refused item fd -> ok = false /\ sent = []) /\
  (ldap_blank fd <-> is_Some (CheckoutModal.errors after !! "ldap"%string)) /\
  (quantity_refused item fd <->
     is_Some (CheckoutModal.errors after !! "quantity"%string)) /\
  (~ ldap_blank fd /\ ~ quantity_refused item fd ->
     ok = true /\ CheckoutModal.errors after = ∅ /\
     sent = [Api.checkoutItem (CheckoutModal.submitted item fd)]).
Proof.
  cbv zeta. rewrite handleSubmit_errors.
  repeat split.
  - destruct (snd (CheckoutModal.validate item st)) eqn:E; [|done].
    apply validate_true_iff in E. tauto.
  - apply handleSubmit_refused.
    destruct (snd (CheckoutModal.validate item st)) eqn:E; [|done].
    apply validate_true_iff in E. tauto.
  - apply ldap_error_iff.
  - apply ldap_error_iff.
  - apply quantity_error_iff.
  - apply quantity_error_iff.
  - by apply validate_true_iff.
  - by apply newErrors_empty_iff.
  - by apply handleSubmit_accepted, validate_true_iff.
Qed.

(** C5: a valid submission of the check-out form is one POST to
    [/api/checkout]; its body holds, in this order, [item_id],
    [user_ldap] (the LDAP field trimmed), [quantity],
    [expected_return_datetime] unless the return-date field is empty,
    [checkout_condition], and [notes] (trimmed) unless the notes are
    blank; nothing else. *)
Theorem C5_checkout_request (item : Item) (st : CheckoutModal.State) :
  snd (CheckoutModal.validate item st) = true ->
  let fd := CheckoutModal.formData st in
  exists r,
    snd (CheckoutModal.handleSubmit item st) = [r] /\
    method r = POST /\ url r = Path "/api/checkout" /\
    body r = Some
      ([ ("item_id"%string, Num (item_id item));
         ("user_ldap"%string, Str (trim (CheckoutModal.ldap fd)));
         ("quantity"%string, Num (CheckoutModal.quantity fd)) ]
       ++ match CheckoutModal.expectedReturn fd with
          | [] => []
          | d => [("expected_return_datetime"%string, Str d)]
          end
       ++ [ ("checkout_condition"%string,
             Str (condition_string (CheckoutModal.condition fd))) ]
       ++ match trim (CheckoutModal.notes fd) with
          | [] => []
          | n => [("notes"%string, Str n)]
          end).
Proof.
  intros Hok. cbv zeta. eexists. split; [by apply handleSubmit_accepted|].
  repeat split. unfold body. simpl.
  destruct (CheckoutModal.expectedReturn (CheckoutModal.formData st));
    destruct (trim (CheckoutModal.notes (CheckoutModal.formData st)));
    reflexivity.
Qed.

Lemma C5_witness :
  exists r,
    snd (CheckoutModal.handleSubmit drill filled_form) = [r] /\
    method r = POST /\ url r = Path "/api/checkout" /\
    body r = Some [ ("item_id"%string, Num 1);
                    ("user_ldap"%string, Str (lit "jdoe"));
                    ("quantity"%string, Num 2);
                    ("checkout_condition"%string, Str (lit "fair")) ].
Proof. exact (C5_checkout_request drill filled_form eq_refl). Defined.

(** The untouched form (no LDAP handle) and a request for more than the
    stock are refused with the field named; nothing is sent. *)
Example submit_blank_ldap :
  let r := CheckoutModal.handleSubmit drill CheckoutModal.initial in
  snd r = [] /\
  CheckoutModal.errors (fst r) !! "ldap"%string
    = Some "LDAP username is required"%string /\
  CheckoutModal.errors (fst r) !! "quantity"%string = None.
Proof. vm_compute. done. Qed.

Example submit_too_many :
  let fd := CheckoutModal.onChange (CheckoutModal.ChangeQuantity (Some 5))
              (CheckoutModal.formData filled_form) in
  let st := {| CheckoutModal.formData := fd; CheckoutModal.errors := ∅;
               CheckoutModal.isPending := false |} in
  let r := CheckoutModal.handleSubmit drill st in
  snd r = [] /\
  CheckoutModal.errors (fst r) !! "quantity"%string
    = Some "Only 3 available"%string /\
  CheckoutModal.errors (fst r) !! "ldap"%string = None.
Proof. vm_compute. done. Qed.

(** C6: submitting the check-in form is one POST to
    [/api/checkout/checkin]; its body holds the displayed checkout's
    [checkout_id], the selected [return_condition], one of good, fair
    and poor, and [return_notes] (trimmed) unless the notes field is
    blank after trimming; nothing else. *)
Theorem C6_checkin_request (checkout : ActiveCheckout) (st : CheckinModal.State) :
  let fd := CheckinModal.formData st in
  exists r,
    snd (CheckinModal.handleSubmit checkout st) = [r] /\
    method r = POST /\ url r = Path "/api/checkout/checkin" /\
    body r = Some
      ([ ("checkout_id"%string, Num (ac_checkout_id checkout));
         ("return_condition"%string,
          Str (condition_string (CheckinModal.returnCondition fd))) ]
       ++ match trim (CheckinModal.returnNotes fd) with
          | [] => []
          | n => [("return_notes"%string, Str n)]
          end) /\
    In (condition_string (CheckinModal.returnCondition fd))
       [lit "good"; lit "fair"; lit "poor"].
Proof.
  cbv zeta. eexists. split; [reflexivity|]. repeat split.
  - unfold body. simpl.
    by destruct (trim (CheckinModal.returnNotes (CheckinModal.formData st))).
  - destruct (CheckinModal.returnCondition (CheckinModal.formData st));
      simpl; tauto.
Qed.

(** ** The active check-outs *)

Lemma String_eqb_empty (s : string) : s <> ""%string -> String.eqb s "" = false.
Proof. intros H. by apply String.eqb_neq. Qed.

(** What axios makes of a relative URL, with or without a slash in
    front, under a base URL. *)
Lemma buildFullPath_relative (baseURL rel : string) :
  baseURL <> ""%string -> rel <> ""%string ->
  Axios.isAbsoluteURL rel = false ->
  Axios.buildFullPath baseURL rel =
  (Axios.dropEndSlashes baseURL +:+ "/" +:+ Axios.dropStartSlashes rel)%string.
Proof.
  intros Hb Hr Ha. unfold Axios.buildFullPath, Axios.combineURLs.
  by rewrite !String_eqb_empty, Ha.
Qed.

(** C7: the active check-outs are asked for with a GET that carries
    nothing: no query, no parameters and no data, whether the function
    is called without an argument, as the pages call it, or with the
    argument its signature names, whose properties are none that axios
    reads. Under a base URL, the request goes to the path
    [/api/checkout/active] below it: the URL the function writes without
    a slash in front is joined to the base URL as the one with the slash
    is. The call returns the data of the client's response, with its
    [success], [total_active_checkouts] and [checkouts], and fails when
    the client does. *)
Theorem C7_active_checkouts_request (baseURL : string)
    (data : option CheckinFormData)
    (client : Request -> option (Axios.Response ActiveCheckoutsResponse)) :
  baseURL <> ""%string ->
  let r := Api.getActiveCheckouts data in
  method r = GET /\
  Axios.fullPath baseURL r =
    (Axios.dropEndSlashes baseURL +:+ "/api/checkout/active")%string /\
  Axios.fullPath baseURL r = Axios.buildFullPath baseURL "/api/checkout/active" /\
  url_params (url r) = [] /\
  Axios.request_params r = None /\
  Axios.request_data r = None /\
  body r = None /\
  payload (Api.getActiveCheckouts None) = None /\
  (forall resp, client r = Some resp ->
     exists res, Await.getActiveCheckouts client data = Some res /\
       acr_success res = acr_success (Axios.data resp) /\
       total_active_checkouts res = total_active_checkouts (Axios.data resp) /\
       checkouts res = checkouts (Axios.data resp)) /\
  (client r = None -> Await.getActiveCheckouts client data = None).
Proof.
  intros Hb. cbv zeta.
  split; [done|]. split.
  { unfold Axios.fullPath. cbn [Api.getActiveCheckouts apiClient_get url url_path].
    by rewrite buildFullPath_relative. }
  split.
  { unfold Axios.fullPath. cbn [Api.getActiveCheckouts apiClient_get url url_path].
    by rewrite !buildFullPath_relative. }
  split; [done|].
  split; [by destruct data|]. split; [by destruct data|].
  split; [done|]. split; [done|]. split.
  - intros resp H. exists (Axios.data resp).
    unfold Await.getActiveCheckouts. by rewrite H.
  - intros H. unfold Await.getActiveCheckouts. by rewrite H.
Qed.

Lemma C7_witness :
  Axios.fullPath "http://localhost:5000" (Api.getActiveCheckouts None) =
  "http://localhost:5000/api/checkout/active"%string.
Proof.
  exact (proj1 (proj2 (C7_active_checkouts_request "http://localhost:5000" None
                         (fun _ => None) ltac:(discriminate)))).
Defined.

Example active_checkouts_urls :
  Axios.fullPath "http://localhost:5000/" (Api.getActiveCheckouts None) =
    "http://localhost:5000/api/checkout/active"%string /\
  Axios.fullPath "http://localhost:5000" Api.getOverdueCheckouts =
    "http://localhost:5000/api/checkout/overdue"%string /\
  Axios.buildFullPath "http://localhost:5000" "https://example.org/x" =
    "https://example.org/x"%string /\
  Axios.buildFullPath "" "api/checkout/active" = "api/checkout/active"%string.
Proof. vm_compute. done. Qed.

(** ** Out-of-stock items *)

(** With no stock, no quantity passes [validate]. *)
Lemma validate_out_of_stock (item : Item) (st : CheckoutModal.State) :
  quantity_available item <= 0 -> snd (CheckoutModal.validate item st) = false.
Proof.
  intros H. destruct (snd (CheckoutModal.validate item st)) eqn:E; [|done].
  apply validate_true_iff in E as [_ Hq]. exfalso. apply Hq.
  unfold quantity_refused. lia.
Qed.

Lemma actionButton_out_of_stock (item : Item) :
  quantity_available item <= 0 ->
  ItemDetailsPage.actionButton item =
    {| button_variant := secondary; button_disabled := true;
       button_onClick := None; button_children := "Out of Stock" |}.
Proof.
  intros H. unfold ItemDetailsPage.actionButton.
  by destruct (Z.ltb_spec 0 (quantity_available item)); [lia|].
Qed.

Lemma actionButton_in_stock (item : Item) :
  0 < quantity_available item ->
  click (ItemDetailsPage.actionButton item) = [SetIsCheckoutModalOpen true].
Proof.
  intros H. unfold ItemDetailsPage.actionButton.
  by destruct (Z.ltb_spec 0 (quantity_available item)); [|lia].
Qed.

Lemma ItemCard_buttons_iff (item : Item) (onCheckout : bool) :
  ItemCard.buttons item onCheckout <> [] <->
  0 < quantity_available item /\ onCheckout = true.
Proof.
  unfold ItemCard.buttons.
  destruct (Z.ltb_spec 0 (quantity_available item)), onCheckout; simpl;
    split; try done; try (intros [? ?]; done || lia).
Qed.

(** While every displayed item is out of stock, a run of the details
    page sends nothing and leaves a closed modal closed. *)
Lemma steps_out_of_stock (evs : list ItemDetailsPage.Event) (st : ItemDetailsPage.State) :
  Forall (fun j => quantity_available j <= 0)
         (ItemDetailsPage.displayed (ItemDetailsPage.item st) evs) ->
  snd (ItemDetailsPage.steps st evs) = [] /\
  (ItemDetailsPage.isCheckoutModalOpen st = false ->
   ItemDetailsPage.isCheckoutModalOpen (fst (ItemDetailsPage.steps st evs)) = false).
Proof.
  revert st. induction evs as [|ev evs IH]; intros st H; [done|].
  assert (Hi : quantity_available (ItemDetailsPage.item st) <= 0).
  { destruct ev; simpl in H; try (by apply Forall_inv in H);
      clear IH; induction evs as [|[] ? IHe]; simpl in H;
      try (by apply Forall_inv in H); by apply IHe. }
  simpl.
  destruct (ItemDetailsPage.step st ev) as [st1 r1] eqn:E1.
  destruct (ItemDetailsPage.steps st1 evs) as [st2 r2] eqn:E2.
  assert (Hst1 : r1 = [] /\
    (ItemDetailsPage.isCheckoutModalOpen st = false ->
     ItemDetailsPage.isCheckoutModalOpen st1 = false) /\
    ItemDetailsPage.displayed (ItemDetailsPage.item st1) evs =
      match ev with
      | ItemDetailsPage.Refetched i' => ItemDetailsPage.displayed i' evs
      | _ => ItemDetailsPage.displayed (ItemDetailsPage.item st) evs
      end).
  { destruct ev; simpl in E1.
    - rewrite (actionButton_out_of_stock _ Hi) in E1. by injection E1 as <- <-.
    - by injection E1 as <- <-.
    - by injection E1 as <- <-.
    - pose proof (handleSubmit_refused (ItemDetailsPage.item st)
        (ItemDetailsPage.modal st) (validate_out_of_stock _ _ Hi)) as Hs.
      destruct (CheckoutModal.handleSubmit _ _) as [m reqs]. simpl in Hs.
      by injection E1 as <- <-.
    - destruct (CheckoutModal.handleClose _) as [m [|]];
        by injection E1 as <- <-.
    - by injection E1 as <- <-.
    - by injection E1 as <- <-. }
  destruct Hst1 as (-> & Hopen & Hdisp).
  specialize (IH st1). rewrite E2, Hdisp in IH. simpl in *.
  destruct IH as [-> IH2].
  - destruct ev; simpl in H; try done; by apply Forall_inv_tail in H.
  - split; [done|]. intros Hc. by apply IH2, Hopen.
Qed.

(** C10: the check-out action is not offered for an item without stock.
    [ItemCard] renders its Checkout button exactly when the stock is
    positive and a handler was passed; for an item whose stock is not
    positive [ItemDetailsPage] shows the disabled Out-of-Stock button,
    on which a click does nothing; and as long as every item the
    details page displays is out of stock, no sequence of events on the
    page opens the modal or sends a request. *)
Theorem C10_no_checkout_offered_out_of_stock
    (i : Item) (evs : list ItemDetailsPage.Event) :
  Forall (fun j => quantity_available j <= 0) (ItemDetailsPage.displayed i evs) ->
  (forall (j : Item) (onCheckout : bool),
     ItemCard.buttons j onCheckout <> [] <->
     0 < quantity_available j /\ onCheckout = true) /\
  (forall onCheckout, ItemCard.buttons i onCheckout = []) /\
  button_disabled (ItemDetailsPage.actionButton i) = true /\
  button_children (ItemDetailsPage.actionButton i) = "Out of Stock"%string /\
  click (ItemDetailsPage.actionButton i) = [] /\
  snd (ItemDetailsPage.steps (ItemDetailsPage.initial i) evs) = [] /\
  ItemDetailsPage.isCheckoutModalOpen
    (fst (ItemDetailsPage.steps (ItemDetailsPage.initial i) evs)) = false.
Proof.
  intros H.
  assert (Hi : quantity_available i <= 0).
  { clear -H. induction evs as [|[] ? IHe]; simpl in H;
      try (by apply Forall_inv in H); by apply IHe. }
  split; [apply ItemCard_buttons_iff|].
  split.
  { intros h. destruct (ItemCard.buttons i h) eqn:E; [done|].
    assert (ItemCard.buttons i h <> []) as Hne by (by rewrite E).
    apply ItemCard_buttons_iff in Hne. lia. }
  rewrite (actionButton_out_of_stock _ Hi). do 3 (split; [done|]).
  destruct (steps_out_of_stock evs (ItemDetailsPage.initial i) H) as [Hs Ho].
  split; [done | by apply Ho].
Qed.

Lemma C10_witness :
  let i := {| item_id := 7; item_name := lit "Drill"; category := lit "tools";
              location := lit "san_jose"; quantity_total := 4;
              quantity_available := 0; quantity_checked_out := 4 |} in
  let evs := [ ItemDetailsPage.ClickActionButton;
               ItemDetailsPage.Change (CheckoutModal.ChangeLdap (lit "jdoe"));
               ItemDetailsPage.Submit ] in
  snd (ItemDetailsPage.steps (ItemDetailsPage.initial i) evs) = [].
Proof.
  cbv zeta.
  refine (proj1 (proj2 (proj2 (proj2 (proj2 (proj2
    (C10_no_checkout_offered_out_of_stock _ _ _))))))).
  simpl. repeat constructor; simpl; lia.
Defined.

(** ** The availability badge *)

Lemma below_fifth_exact (item : Item) :
  safe (quantity_available item) -> safe (quantity_total item) ->
  below_fifth item = (5 * quantity_available item <? quantity_total item).
Proof. apply lt_fifth_exact. Qed.

Lemma availabilityStatus_cases (a t : Z) :
  availabilityStatus a t =
  if a =? 0 then "Out of Stock"%string
  else if 5 * a <? t then "Low Stock"%string else "Available"%string.
Proof.
  unfold availabilityStatus. destruct (a =? 0); [done|].
  unfold Qcompare. cbn [Qnum Qden inject_Z Qmult].
  change (Z.pos (10 * 1)) with 10.
  destruct (Z.compare_spec (a * 10) (2 * t * 1));
    destruct (Z.ltb_spec (5 * a) t); try done; lia.
Qed.

Lemma getAvailabilityBadge_same (item : Item) :
  ItemDetailsPage.getAvailabilityBadge item = ItemCard.getAvailabilityBadge item.
Proof. reflexivity. Qed.

(** C2: the availability classification of an item whose quantities are
    non-negative safe integers is the one of the specification, on the
    item card and on the details page alike: "Out of Stock" when
    [quantity_available] is 0, otherwise "Low Stock" when
    [quantity_available < 0.2 * quantity_total] (that is, when five times
    the available quantity is below the total), otherwise "Available";
    the floating-point product of the code decides as the exact one. For
    a total of 10: 0 available is "Out of Stock", 1 is "Low Stock" and
    8 is "Available". *)
Theorem C2_availability_status (item : Item) :
  safe (quantity_available item) -> safe (quantity_total item) ->
  let a := quantity_available item in
  let t := quantity_total item in
  badge_children (ItemCard.getAvailabilityBadge item) = availabilityStatus a t /\
  ItemDetailsPage.getAvailabilityBadge item = ItemCard.getAvailabilityBadge item /\
  ItemCard.getAvailabilityBadge item =
    (if a =? 0 then {| badge_variant := danger; badge_children := "Out of Stock" |}
     else if 5 * a <? t
          then {| badge_variant := warning; badge_children := "Low Stock" |}
          else {| badge_variant := success; badge_children := "Available" |}) /\
  (t = 10 ->
   (a = 0 -> availabilityStatus a t = "Out of Stock"%string) /\
   (a = 1 -> availabilityStatus a t = "Low Stock"%string) /\
   (a = 8 -> availabilityStatus a t = "Available"%string)).
Proof.
  intros Ha Ht. cbv zeta.
  assert (ItemCard.getAvailabilityBadge item =
    (if quantity_available item =? 0
     then {| badge_variant := danger; badge_children := "Out of Stock" |}
     else if 5 * quantity_available item <? quantity_total item
          then {| badge_variant := warning; badge_children := "Low Stock" |}
          else {| badge_variant := success; badge_children := "Available" |})) as E.
  { unfold ItemCard.getAvailabilityBadge. by rewrite below_fifth_exact. }
  split.
  { rewrite E, availabilityStatus_cases.
    destruct (quantity_available item =? 0); [done|].
    by destruct (5 * quantity_available item <? quantity_total item). }
  split; [reflexivity|]. split; [exact E|].
  intros ->. repeat split; intros ->; reflexivity.
Qed.

Lemma C2_witness :
  let item := {| item_id := 1; item_name := lit "Drill"; category := lit "tools";
                 location := lit "san_jose"; quantity_total := 10;
                 quantity_available := 1; quantity_checked_out := 9 |} in
  badge_children (ItemCard.getAvailabilityBadge item) = availabilityStatus 1 10.
Proof.
  cbv zeta.
  refine (proj1 (C2_availability_status _ _ _)); unfold safe; simpl; lia.
Defined.

(** The three items of the specification, by evaluation of the code. *)
Example availability_of_ten :
  let mk (a : Z) :=
    {| item_id := 1; item_name := lit "Drill"; category := lit "tools";
       location := lit "san_jose"; quantity_total := 10;
       quantity_available := a; quantity_checked_out := 10 - a |} in
  map (fun a => badge_children (ItemCard.getAvailabilityBadge (mk a))) [0; 1; 2; 8]
  = ["Out of Stock"; "Low Stock"; "Available"; "Available"]%string.
Proof. vm_compute. reflexivity. Qed.

(** The double nearest to one fifth lies above it, yet a fifth of a
    multiple of five still rounds to the exact quotient. *)
Example fifth_of_fifteen :
  mul (of_Z 15) lit_0_2 = of_Z 3 /\
  mul (of_Z 3) lit_0_2 = S754_finite false 5404319552844596 (-53).
Proof. vm_compute. done. Qed.

(** ** The dashboard counts *)

Lemma filter_split_length {A : Type} (p q : A -> bool) (l : list A) :
  Forall (fun x => p x = negb (q x)) l ->
  (length (List.filter p l) + length (List.filter q l) = length l)%nat.
Proof.
  induction 1 as [|x l Hx _ IH]; [reflexivity|].
  simpl. rewrite Hx. destruct (q x); simpl; lia.
Qed.

Lemma filter_le_length {A : Type} (p q : A -> bool) (l : list A) :
  (forall x, p x = true -> q x = true) ->
  (length (List.filter p l) <= length (List.filter q l))%nat.
Proof.
  intros Hpq. induction l as [|x l IH]; [reflexivity|].
  simpl. destruct (p x) eqn:Hp.
  - rewrite (Hpq x Hp). simpl. lia.
  - destruct (q x); simpl; lia.
Qed.

Lemma isLowStock_isAvailable (i : Item) :
  DashboardPage.isLowStock i = true -> DashboardPage.isAvailable i = true.
Proof.
  unfold DashboardPage.isLowStock, DashboardPage.isAvailable.
  by intros [? _]%andb_true_iff.
Qed.

Lemma isOutOfStock_not_isAvailable (i : Item) :
  ~ (DashboardPage.isOutOfStock i = true /\ DashboardPage.isAvailable i = true).
Proof.
  unfold DashboardPage.isOutOfStock, DashboardPage.isAvailable.
  intros [H1%Z.eqb_eq H2%Z.ltb_lt]. lia.
Qed.

(** The dashboard's classes are the badges of the item cards. *)
Lemma isOutOfStock_badge (i : Item) :
  DashboardPage.isOutOfStock i = true <->
  badge_children (ItemCard.getAvailabilityBadge i) = "Out of Stock"%string.
Proof.
  unfold DashboardPage.isOutOfStock, ItemCard.getAvailabilityBadge.
  destruct (quantity_available i =? 0); [done|].
  destruct (below_fifth i); simpl; split; discriminate.
Qed.

Lemma isLowStock_badge (i : Item) :
  0 <= quantity_available i ->
  DashboardPage.isLowStock i = true <->
  badge_children (ItemCard.getAvailabilityBadge i) = "Low Stock"%string.
Proof.
  intros H. unfold DashboardPage.isLowStock, ItemCard.getAvailabilityBadge.
  destruct (Z.eqb_spec (quantity_available i) 0) as [E|E].
  - rewrite E. simpl. split; discriminate.
  - destruct (Z.ltb_spec 0 (quantity_available i)); [|lia].
    destruct (below_fifth i); simpl; split; done.
Qed.

Lemma isLowStock_exact (i : Item) :
  safe (quantity_available i) -> safe (quantity_total i) ->
  DashboardPage.isLowStock i = true <->
  0 < quantity_available i /\ 5 * quantity_available i < quantity_total i.
Proof.
  intros Ha Ht. unfold DashboardPage.isLowStock.
  rewrite below_fifth_exact, andb_true_iff, !Z.ltb_lt by done. tauto.
Qed.

(** The counts of the code, taken with [Array.prototype.filter] and a
    test, are the counts of the items that have the property tested. *)
Lemma filter_length_decide {A : Type} (f : A -> bool) (P : A -> Prop)
    `{!forall x, Decision (P x)} (l : list A) :
  Forall (fun x => f x = true <-> P x) l ->
  length (List.filter f l) = length (filter P l).
Proof.
  induction 1 as [|x l Hx _ IH]; [reflexivity|].
  rewrite filter_cons. cbn [List.filter].
  destruct (f x), (decide (P x)) as [Hp|Hp]; cbn [length].
  - by rewrite IH.
  - exfalso. by apply Hp, Hx.
  - by apply Hx in Hp.
  - done.
Qed.

Lemma filter_iff_Forall {A : Type} (P Q : A -> Prop)
    `{!forall x, Decision (P x), !forall x, Decision (Q x)} (l : list A) :
  Forall (fun x => P x <-> Q x) l -> filter P l = filter Q l.
Proof.
  induction 1 as [|x l Hx _ IH]; [reflexivity|].
  rewrite !filter_cons, IH.
  destruct (decide (P x)) as [Hp|Hp], (decide (Q x)) as [Hq|Hq]; try done.
  - exfalso. by apply Hq, Hx.
  - exfalso. by apply Hp, Hx.
Qed.

Lemma out_available_partition (items : list Item) :
  Forall (fun i => 0 <= quantity_available i) items ->
  items ≡ₚ filter (fun i => quantity_available i = 0) items ++
            filter (fun i => 0 < quantity_available i) items.
Proof.
  induction 1 as [|x l Hx _ IH]; [reflexivity|].
  rewrite !filter_cons.
  destruct (decide (quantity_available x = 0)),
           (decide (0 < quantity_available x)); try lia.
  - cbn [app]. by constructor.
  - rewrite <- Permutation_middle. by constructor.
Qed.

(** C9: the dashboard counts partition the items. For a list of items
    with non-negative stock (the data model's [0 <= quantity_available]),
    [totalItems] is the number of items, [outOfStock] the number of the
    items with no stock, [availableItems] the number of the items with
    stock, and [lowStock] the number of the items whose card shows the
    Low Stock badge, which on safe integers are the items with a stock
    that is positive and below a fifth of the total. The items without
    stock and the items with stock make up the list, each item once, so
    the Out-of-Stock count plus the Available count is the number of
    items; every item counted as Low Stock is counted as Available, so
    the Low-Stock count is at most the Available count; no item is
    counted both Out of Stock and Low Stock, nor both Out of Stock and
    Available. *)
Theorem C9_dashboard_partition (items : list Item) :
  Forall (fun i => 0 <= quantity_available i) items ->
  let s := DashboardPage.stats items in
  let out := filter (fun i => quantity_available i = 0) items in
  let avail := filter (fun i => 0 < quantity_available i) items in
  let low :=
    filter (fun i => badge_children (ItemCard.getAvailabilityBadge i)
                     = "Low Stock"%string) items in
  DashboardPage.totalItems s = length items /\
  DashboardPage.outOfStock s = length out /\
  DashboardPage.availableItems s = length avail /\
  DashboardPage.lowStock s = length low /\
  (Forall (fun i => safe (quantity_available i) /\ safe (quantity_total i)) items ->
   low = filter (fun i => 0 < quantity_available i /\
                          5 * quantity_available i < quantity_total i) items) /\
  items ≡ₚ out ++ avail /\
  (forall i, i ∈ low -> i ∈ avail) /\
  (forall i, i ∈ out -> (i ∉ low) /\ (i ∉ avail)) /\
  (DashboardPage.outOfStock s + DashboardPage.availableItems s
   = DashboardPage.totalItems s)%nat /\
  (forall i, DashboardPage.isLowStock i = true ->
             DashboardPage.isAvailable i = true) /\
  (DashboardPage.lowStock s <= DashboardPage.availableItems s)%nat /\
  (forall i, ~ (DashboardPage.isOutOfStock i = true /\
                DashboardPage.isLowStock i = true)) /\
  (forall i, ~ (DashboardPage.isOutOfStock i = true /\
                DashboardPage.isAvailable i = true)) /\
  (forall i, safe (quantity_available i) -> safe (quantity_total i) ->
     (DashboardPage.isLowStock i = true <->
      0 < quantity_available i /\ 5 * quantity_available i < quantity_total i)).
Proof.
  intros H. cbv zeta. cbn [DashboardPage.stats DashboardPage.totalItems
    DashboardPage.outOfStock DashboardPage.availableItems DashboardPage.lowStock].
  split; [done|].
  split.
  { apply filter_length_decide, Forall_forall. intros i _.
    unfold DashboardPage.isOutOfStock. apply Z.eqb_eq. }
  split.
  { apply filter_length_decide, Forall_forall. intros i _.
    unfold DashboardPage.isAvailable. apply Z.ltb_lt. }
  split.
  { apply filter_length_decide. eapply Forall_impl; [exact H|].
    intros i Hi. by apply isLowStock_badge. }
  split.
  { intros Hs. apply filter_iff_Forall. eapply Forall_impl; [exact Hs|].
    intros i [Ha Ht]. cbv beta in Ha, Ht.
    rewrite <- isLowStock_badge by (unfold safe in Ha; lia).
    by apply isLowStock_exact. }
  split; [by apply out_available_partition|].
  split.
  { intros i [Hb Hi]%list_elem_of_filter. apply list_elem_of_filter.
    split; [|done].
    assert (0 <= quantity_available i) as Hi'.
    { rewrite Forall_forall in H. by apply H. }
    apply isLowStock_badge, isLowStock_isAvailable in Hb; [|done].
    by apply Z.ltb_lt. }
  split.
  { intros i [Ho Hi]%list_elem_of_filter.
    rewrite !list_elem_of_filter. split.
    - intros [Hb _]. revert Hb. unfold ItemCard.getAvailabilityBadge.
      by rewrite Ho.
    - intros [? _]. lia. }
  split.
  { apply filter_split_length. eapply Forall_impl; [exact H|].
    intros i Hi. cbv beta in Hi.
    unfold DashboardPage.isOutOfStock, DashboardPage.isAvailable.
    destruct (Z.eqb_spec (quantity_available i) 0),
             (Z.ltb_spec 0 (quantity_available i)); simpl; (done || lia). }
  split; [apply isLowStock_isAvailable|].
  split; [apply filter_le_length, isLowStock_isAvailable|].
  split.
  { intros i [H1 H2%isLowStock_isAvailable].
    by apply (isOutOfStock_not_isAvailable i). }
  split; [apply isOutOfStock_not_isAvailable|].
  intros i Ha Ht. by apply isLowStock_exact.
Qed.

Lemma C9_witness :
  let mk (t a : Z) :=
    {| item_id := t; item_name := lit "Saw"; category := lit "tools";
       location := lit "3k"; quantity_total := t;
       quantity_available := a; quantity_checked_out := t - a |} in
  let s := DashboardPage.stats [mk 10 0; mk 10 1; mk 10 8] in
  DashboardPage.totalItems s = 3%nat /\
  DashboardPage.outOfStock s = 1%nat /\
  DashboardPage.availableItems s = 2%nat /\
  DashboardPage.lowStock s = 1%nat.
Proof.
  cbv zeta.
  pose proof (C9_dashboard_partition
    [ {| item_id := 10; item_name := lit "Saw"; category := lit "tools";
         location := lit "3k"; quantity_total := 10;
         quantity_available := 0; quantity_checked_out := 10 - 0 |};
      {| item_id := 10; item_name := lit "Saw"; category := lit "tools";
         location := lit "3k"; quantity_total := 10;
         quantity_available := 1; quantity_checked_out := 10 - 1 |};
      {| item_id := 10; item_name := lit "Saw"; category := lit "tools";
         location := lit "3k"; quantity_total := 10;
         quantity_available := 8; quantity_checked_out := 10 - 8 |} ])
    as H.
  destruct H as (H1 & H2 & H3 & H4 & _).
  - repeat constructor; simpl; lia.
  - rewrite H1, H2, H3, H4. vm_compute. done.
Defined.

Example dashboard_counts :
  let mk (t a : Z) :=
    {| item_id := t; item_name := lit "Saw"; category := lit "tools";
       location := lit "3k"; quantity_total := t;
       quantity_available := a; quantity_checked_out := t - a |} in
  DashboardPage.stats [mk 10 0; mk 10 1; mk 10 8; mk 5 1] =
  {| DashboardPage.totalItems := 4; DashboardPage.availableItems := 3;
     DashboardPage.outOfStock := 1; DashboardPage.lowStock := 1 |}.
Proof. vm_compute. reflexivity. Qed.

(** ** The check-out service: conservation of quantities *)

Section Conservation.

Import Service.

Variable active : Item -> bool.

Lemma move_out_conserved (q : Z) (i : Item) :
  conserved i -> conserved (move_out q i).
Proof. unfold conserved, move_out. simpl. lia. Qed.

Lemma update_item_conserved (id q : Z) (its : list Item) :
  Forall conserved its -> Forall conserved (update_item id (move_out q) its).
Proof.
  unfold update_item. induction 1 as [|i its Hi _ IH]; simpl; constructor; auto.
  destruct (item_id i =? id); auto using move_out_conserved.
Qed.

Lemma checkout_items now id l q e c n (s s' : Store) (co : Checkout) :
  checkout active now id l q e c n s = Ok (s', co) ->
  items s' = update_item id (move_out q) (items s) /\
  0 < q /\
  exists it, find_item id (items s) = Some it /\ q <= quantity_available it.
Proof.
  unfold checkout.
  destruct (Z.leb_spec q 0); [discriminate|].
  destruct (find_item id (items s)) as [it|]; [|discriminate].
  destruct (active it); [|discriminate]. simpl.
  destruct (users s !! l); [|discriminate].
  destruct (Z.ltb_spec (quantity_available it) q); [discriminate|].
  intros [= <- _]. simpl. eauto.
Qed.

Lemma checkin_items now id c n (s s' : Store) (h : CheckoutHistory) :
  checkin now id c n s = Ok (s', h) ->
  exists co, open s !! id = Some co /\ closed h = co /\
    items s' = update_item (co_item_id co) (move_out (- co_quantity co)) (items s).
Proof.
  unfold checkin. destruct (open s !! id) as [co|].
  - intros [= <- <-]. simpl. eauto.
  - destruct (existsb _ _); discriminate.
Qed.

Lemma exec_conserved (s : Store) (op : Op) :
  Forall conserved (items s) -> Forall conserved (items (exec active s op)).
Proof.
  intros H. destruct op as [now id l q e c n | now id c n]; simpl.
  - destruct (checkout active now id l q e c n s) as [[s' co]|] eqn:E; [|done].
    apply checkout_items in E as (-> & _). by apply update_item_conserved.
  - destruct (checkin now id c n s) as [[s' h]|] eqn:E; [|done].
    apply checkin_items in E as (co & _ & _ & ->). by apply update_item_conserved.
Qed.

Lemma run_conserved (ops : list Op) (s : Store) :
  Forall conserved (items s) -> Forall conserved (items (run active s ops)).
Proof.
  revert s. induction ops as [|op ops IH]; intros s H; [done|].
  simpl. by apply IH, exec_conserved.
Qed.

(** A failed operation leaves the store as it was. *)
Lemma exec_failed_checkout now id l q e c n (s : Store) (err : Error) :
  checkout active now id l q e c n s = Err err ->
  exec active s (DoCheckout now id l q e c n) = s.
Proof. intros H. simpl. by rewrite H. Qed.

Lemma checkout_insufficient now id l q e c n (s : Store) (it : Item) (uid : Z) :
  0 < q -> find_item id (items s) = Some it -> active it = true ->
  users s !! l = Some uid -> quantity_available it < q ->
  checkout active now id l q e c n s = Err InsufficientQuantity.
Proof.
  intros Hq Hf Ha Hu Hlt. unfold checkout.
  destruct (Z.leb_spec q 0); [lia|]. rewrite Hf, Ha, Hu. simpl.
  by destruct (Z.ltb_spec (quantity_available it) q); [|lia].
Qed.

(** Without an expected return the loan is due seven days after the
    check-out. *)
Lemma checkout_default_return now id l q c n (s s' : Store) (co : Checkout) :
  checkout active now id l q None c n s = Ok (s', co) ->
  checkout_date co = now /\ expected_return_datetime co = now + 7 * day.
Proof.
  unfold checkout.
  destruct (q <=? 0); [discriminate|].
  destruct (find_item id (items s)) as [it|]; [|discriminate].
  destruct (active it); [|discriminate]. simpl.
  destruct (users s !! l); [|discriminate].
  destruct (quantity_available it <? q); [discriminate|].
  by intros [= _ <-].
Qed.

Lemma move_out_back (q : Z) (i : Item) : move_out (- q) (move_out q i) = i.
Proof. destruct i. unfold move_out. simpl. f_equal; lia. Qed.

(** Round trip: a check-out followed by the check-in of that loan
    restores every item row. *)
Lemma checkout_checkin_round_trip now id l q e c n now' c' n'
    (s s1 s2 : Store) (co : Checkout) (h : CheckoutHistory) :
  checkout active now id l q e c n s = Ok (s1, co) ->
  checkin now' (checkout_id co) c' n' s1 = Ok (s2, h) ->
  items s2 = items s /\ closed h = co.
Proof.
  unfold checkout.
  destruct (q <=? 0); [discriminate|].
  destruct (find_item id (items s)) as [it|]; [|discriminate].
  destruct (active it); [|discriminate]. simpl.
  destruct (users s !! l); [|discriminate].
  destruct (quantity_available it <? q); [discriminate|].
  intros [= <- <-]. unfold checkin. simpl. rewrite lookup_insert_eq.
  intros [= <- <-]. simpl. split; [|done].
  unfold update_item. rewrite map_map. rewrite <- (map_id (items s)) at 2.
  apply map_ext. intros i.
  destruct (Z.eqb_spec (item_id i) id) as [E|E].
  - change (item_id (move_out q i)) with (item_id i).
    destruct (Z.eqb_spec (item_id i) id); [|done]. apply move_out_back.
  - by destruct (Z.eqb_spec (item_id i) id).
Qed.

(** A loan is returned once: after a check-in, a second one on the same
    id is refused. *)
Lemma checkin_twice now id c n now' c' n' (s s' : Store) (h : CheckoutHistory) :
  (forall co, open s !! id = Some co -> checkout_id co = id) ->
  checkin now id c n s = Ok (s', h) ->
  checkin now' id c' n' s' = Err AlreadyReturned.
Proof.
  intros Hkey E. unfold checkin in E.
  destruct (open s !! id) as [co|] eqn:Eo;
    [|destruct (existsb _ _); discriminate].
  injection E as <- <-. unfold checkin. simpl.
  rewrite lookup_delete_eq, existsb_app. simpl.
  rewrite (Hkey co eq_refl), Z.eqb_refl. by rewrite orb_true_r.
Qed.

End Conservation.

(** C1: for every item, [quantity_available + quantity_checked_out =
    quantity_total] is kept by the service: if it holds of every item
    row of a store, it holds after every successful check-out, after
    every successful check-in, and after every sequence of check-out
    and check-in requests, each run as one transaction in whatever
    order concurrent attempts are serialised (failed ones change
    nothing). *)
Theorem C1_quantity_conservation (active : Item -> bool) (s : Service.Store) :
  Forall Service.conserved (Service.items s) ->
  (forall now id l q e c n s' co,
     Service.checkout active now id l q e c n s = Service.Ok (s', co) ->
     Forall Service.conserved (Service.items s')) /\
  (forall now id c n s' h,
     Service.checkin now id c n s = Service.Ok (s', h) ->
     Forall Service.conserved (Service.items s')) /\
  (forall ops, Forall Service.conserved (Service.items (Service.run active s ops))).
Proof.
  intros H. repeat split.
  - intros now id l q e c n s' co E.
    change s' with (fst (s', co)).
    pose proof (exec_conserved active s (Service.DoCheckout now id l q e c n) H) as H'.
    simpl in H'. by rewrite E in H'.
  - intros now id c n s' h E.
    pose proof (exec_conserved active s (Service.DoCheckin now id c n) H) as H'.
    simpl in H'. by rewrite E in H'.
  - intros ops. by apply run_conserved.
Qed.

Lemma C1_witness :
  Forall Service.conserved
    (Service.items (Service.run (fun _ => true) scenario_store scenario_ops)).
Proof.
  refine (proj2 (proj2 (C1_quantity_conservation _ scenario_store _)) _).
  repeat constructor.
Defined.

Example scenario_quantities :
  map (fun i => (quantity_available i, quantity_checked_out i))
      (Service.items (Service.run (fun _ => true) scenario_store
                        (firstn 1 scenario_ops))) = [(3, 2)] /\
  map (fun i => (quantity_available i, quantity_checked_out i))
      (Service.items (Service.run (fun _ => true) scenario_store scenario_ops))
    = [(5, 0)] /\
  map Service.late_return
      (Service.history (Service.run (fun _ => true) scenario_store scenario_ops))
    = [false].
Proof. vm_compute. done. Qed.

(** ** Overdue loans *)

Lemma days_overdue_floor (now : Z) (c : Service.Checkout) :
  Service.days_overdue now c =
  Z.max 0 ((now - Service.expected_return_datetime c) / Service.day).
Proof.
  unfold Service.days_overdue, Service.is_overdue, Service.day.
  destruct (Z.ltb_spec (Service.expected_return_datetime c) now).
  - rewrite Z.max_r; [done|]. apply Z.div_pos; lia.
  - rewrite Z.max_l; [done|].
    assert (now - Service.expected_return_datetime c <= 0) as H' by lia.
    apply Z.div_le_upper_bound; lia.
Qed.

Lemma days_overdue_whole (now : Z) (c : Service.Checkout) (d : Z) :
  0 <= d ->
  Service.expected_return_datetime c < now ->
  d * Service.day <= now - Service.expected_return_datetime c < (d + 1) * Service.day ->
  Service.days_overdue now c = d.
Proof.
  intros Hd Hlt Hr. unfold Service.days_overdue, Service.is_overdue.
  destruct (Z.ltb_spec (Service.expected_return_datetime c) now); [|lia].
  unfold Service.day in *. symmetry. apply (Z.div_unique _ _ d
    (now - Service.expected_return_datetime c - d * 86400)); lia.
Qed.

(** C4: for an open checkout, [is_overdue] holds exactly when the
    current time is past [expected_return_datetime]; [days_overdue] is
    the number of whole days elapsed since then, and 0 when that is
    negative; three days past the expected return it is 3; with the
    expected return in the future [is_overdue] is false and
    [days_overdue] is 0; and these are the values [listActive] attaches
    to every open checkout. *)
Theorem C4_overdue_days (now : Z) (c : Service.Checkout) :
  (Service.is_overdue now c = true <-> Service.expected_return_datetime c < now) /\
  Service.days_overdue now c =
    Z.max 0 ((now - Service.expected_return_datetime c) / Service.day) /\
  (Service.expected_return_datetime c = now - 3 * Service.day ->
   Service.is_overdue now c = true /\ Service.days_overdue now c = 3) /\
  (now < Service.expected_return_datetime c ->
   Service.is_overdue now c = false /\ Service.days_overdue now c = 0) /\
  (forall (s : Service.Store) (o : bool) (d : Z),
     In (c, o, d) (Service.listActive now s) ->
     o = Service.is_overdue now c /\ d = Service.days_overdue now c).
Proof.
  split; [apply Z.ltb_lt|]. split; [apply days_overdue_floor|].
  repeat split.
  - apply Z.ltb_lt. unfold Service.day in *. lia.
  - apply days_overdue_whole; unfold Service.day in *; lia.
  - apply Z.ltb_ge. lia.
  - unfold Service.days_overdue, Service.is_overdue.
    by destruct (Z.ltb_spec (Service.expected_return_datetime c) now); [lia|].
  - unfold Service.listActive in H. apply in_map_iff in H as (c' & [= <- <- <-] & _).
    done.
  - unfold Service.listActive in H. apply in_map_iff in H as (c' & [= <- <- <-] & _).
    done.
Qed.

Example overdue_three_days :
  let c := {| Service.checkout_id := 1; Service.co_item_id := 1;
              Service.co_user_id := 10; Service.co_quantity := 2;
              Service.checkout_date := 0;
              Service.expected_return_datetime := 7 * 86400;
              Service.checkout_condition := good; Service.co_notes := None |} in
  Service.days_overdue (10 * 86400 + 3599) c = 3 /\
  Service.is_overdue (10 * 86400 + 3599) c = true /\
  Service.days_overdue (6 * 86400) c = 0 /\
  Service.is_overdue (6 * 86400) c = false.
Proof. vm_compute. done. Qed.

(** ** Search *)

Lemma is_prefix_spec (p s : jsstring) :
  Service.is_prefix p s = true <-> exists r, s = p ++ r.
Proof.
  revert s. induction p as [|a p IH]; intros s; simpl.
  - split; [intros _; by exists s | done].
  - destruct s as [|b s].
    + split; [done | intros [r Hr]; discriminate].
    + rewrite andb_true_iff, N.eqb_eq, IH. split.
      * intros [-> [r ->]]. by exists r.
      * intros [r [= -> ->]]. eauto.
Qed.

Lemma is_substring_spec (p s : jsstring) :
  Service.is_substring p s = true <-> exists a b, s = a ++ p ++ b.
Proof.
  induction s as [|c s IH].
  - simpl. rewrite orb_false_r, is_prefix_spec. split.
    + intros [r Hr]. by exists [], r.
    + intros (a & b & H). destruct a; [by exists b|discriminate].
  - cbn [Service.is_substring]. rewrite orb_true_iff, is_prefix_spec, IH. split.
    + intros [[r Hr] | (a & b & ->)]; [by exists [], r | by exists (c :: a), b].
    + intros ([|c' a] & b & H); [left; by exists b|].
      right. injection H as _ ->. by exists a, b.
Qed.

(** *** Letter case *)

Lemma ascii_lower_cons (c : code_unit) (s : jsstring) :
  Service.ascii_lower (c :: s) =
  (if (65 <=? c) && (c <=? 90) then c + 32 else c)%N :: Service.ascii_lower s.
Proof. reflexivity. Qed.

Lemma ascii_lower_app (s t : jsstring) :
  Service.ascii_lower (s ++ t) = Service.ascii_lower s ++ Service.ascii_lower t.
Proof. apply map_app. Qed.

Lemma lower_unit_eq (c d : code_unit) :
  (if (65 <=? c) && (c <=? 90) then c + 32 else c)%N =
  (if (65 <=? d) && (d <=? 90) then d + 32 else d)%N <->
  same_letter c d.
Proof.
  unfold same_letter.
  destruct (N.leb_spec 65 c), (N.leb_spec c 90), (N.leb_spec 65 d),
    (N.leb_spec d 90); simpl; lia.
Qed.

(** Folding the case identifies exactly the strings that are equal up
    to the case of their letters. *)
Lemma ascii_lower_eq (s t : jsstring) :
  Service.ascii_lower s = Service.ascii_lower t <-> eq_ci s t.
Proof.
  unfold eq_ci. revert t. induction s as [|c s IH]; intros [|d t].
  - split; [constructor | done].
  - split; [discriminate | inversion 1].
  - split; [discriminate | inversion 1].
  - rewrite !ascii_lower_cons. split.
    + intros [= Hc Hs]. constructor; [by apply lower_unit_eq | by apply IH].
    + inversion 1 as [|? ? ? ? Hc Hs]; subst.
      f_equal; [by apply lower_unit_eq | by apply IH].
Qed.

Lemma eq_ci_refl (s : jsstring) : eq_ci s s.
Proof. by apply ascii_lower_eq. Qed.

Lemma eq_ci_sym (s t : jsstring) : eq_ci s t -> eq_ci t s.
Proof. rewrite <- !ascii_lower_eq. congruence. Qed.

(** A match after case folding is an occurrence up to case. *)
Lemma is_substring_ci (q s : jsstring) :
  Service.is_substring (Service.ascii_lower q) (Service.ascii_lower s) = true <->
  contains_ci s q.
Proof.
  rewrite is_substring_spec. unfold contains_ci. split.
  - intros (a & b & H). unfold Service.ascii_lower in H at 1.
    apply map_eq_app in H as (a' & r & -> & Ha & Hr).
    apply map_eq_app in Hr as (m & b' & -> & Hm & Hb).
    exists a', m, b'. split; [done|]. by apply ascii_lower_eq.
  - intros (a & m & b & -> & Hm%ascii_lower_eq).
    exists (Service.ascii_lower a), (Service.ascii_lower b).
    by rewrite !ascii_lower_app, Hm.
Qed.

Lemma matches_spec (query : jsstring) (loc : option jsstring) (i : Item) :
  Service.matches query loc i = true <->
  (contains_ci (item_name i) query \/ contains_ci (category i) query) /\
  (forall l, loc = Some l -> location i = l).
Proof.
  unfold Service.matches.
  rewrite andb_true_iff, orb_true_iff, !is_substring_ci.
  apply and_iff_compat_l. destruct loc as [l|].
  - rewrite bool_decide_eq_true. split; [by intros -> ? [= <-] | auto].
  - split; [by intros _ ? [=] | done].
Qed.

Lemma matches_eq_ci (q q' : jsstring) (loc : option jsstring) (i : Item) :
  eq_ci q q' -> Service.matches q loc i = Service.matches q' loc i.
Proof. intros H%ascii_lower_eq. unfold Service.matches. by rewrite H. Qed.

(** *** USV strings *)

Lemma to_usv_cons (c : code_unit) (s : jsstring) :
  to_usv (c :: s) =
  if is_high_surrogate c then
    match s with
    | d :: s'' =>
        if is_low_surrogate d then c :: d :: to_usv s''
        else 65533%N :: to_usv s
    | [] => [65533%N]
    end
  else if is_low_surrogate c then 65533%N :: to_usv s
  else c :: to_usv s.
Proof. reflexivity. Qed.

Lemma well_formed_cons (c : code_unit) (s : jsstring) :
  well_formed (c :: s) =
  if is_high_surrogate c then
    match s with
    | d :: s'' => is_low_surrogate d && well_formed s''
    | [] => false
    end
  else negb (is_low_surrogate c) && well_formed s.
Proof. reflexivity. Qed.

(** Induction two code units at a time. *)
Lemma pairs_ind (P : jsstring -> Prop) :
  P [] -> (forall c, P [c]) ->
  (forall c d s, P s -> P (d :: s) -> P (c :: d :: s)) ->
  forall s, P s.
Proof.
  intros H0 H1 H2 s.
  assert (P s /\ forall c, P (c :: s)) as [? _]; [|done].
  induction s as [|d s [IH1 IH2]]; [by split|].
  split; [apply IH2|]. intros c. by apply H2.
Qed.

Lemma replacement_not_surrogate (c : code_unit) :
  c = 65533%N -> is_high_surrogate c = false /\ is_low_surrogate c = false.
Proof. by intros ->. Qed.

(** The conversion changes exactly the strings that are not well-formed. *)
Lemma to_usv_well_formed (s : jsstring) :
  to_usv s = s <-> well_formed s = true.
Proof.
  induction s as [| c | c d s IH1 IH2] using pairs_ind.
  - done.
  - rewrite to_usv_cons, well_formed_cons.
    destruct (is_high_surrogate c) eqn:Eh.
    { split; [|done]. intros [= Hc]. symmetry in Hc.
      apply replacement_not_surrogate in Hc as [? _]. congruence. }
    destruct (is_low_surrogate c) eqn:El; cbn [negb andb]; [|done].
    split; [|done]. intros [= Hc]. symmetry in Hc.
    apply replacement_not_surrogate in Hc as [_ ?]. congruence.
  - rewrite to_usv_cons, well_formed_cons.
    destruct (is_high_surrogate c) eqn:Eh.
    { destruct (is_low_surrogate d) eqn:El; cbn [negb andb].
      - split; [intros [= H]; by apply IH1 | intros H%IH1; by rewrite H].
      - split; [|done]. intros [= Hc _]. symmetry in Hc.
        apply replacement_not_surrogate in Hc as [? _]. congruence. }
    destruct (is_low_surrogate c) eqn:El; cbn [negb andb].
    + split; [|done]. intros [= Hc _]. symmetry in Hc.
      apply replacement_not_surrogate in Hc as [_ ?]. congruence.
    + split; [intros [= H]; by apply IH2 | intros H%IH2; by rewrite H].
Qed.

Lemma to_usv_nonempty (s : jsstring) : s <> [] -> to_usv s <> [].
Proof.
  destruct s as [|c s]; [done|]. intros _. rewrite to_usv_cons.
  destruct (is_high_surrogate c); [by destruct s as [|d s]; [|destruct (is_low_surrogate d)]|].
  by destruct (is_low_surrogate c).
Qed.

Lemma lower_unit_surrogate (c : code_unit) :
  let c' := (if (65 <=? c) && (c <=? 90) then c + 32 else c)%N in
  is_high_surrogate c' = is_high_surrogate c /\
  is_low_surrogate c' = is_low_surrogate c.
Proof.
  cbv zeta. unfold is_high_surrogate, is_low_surrogate.
  destruct (N.leb_spec 65 c), (N.leb_spec c 90); simpl; [|done..].
  split.
  - destruct (N.leb_spec 55296 (c + 32)), (N.leb_spec 55296 c); simpl;
      (done || lia).
  - destruct (N.leb_spec 56320 (c + 32)), (N.leb_spec 56320 c); simpl;
      (done || lia).
Qed.

(** Case folding leaves the surrogates alone, so it commutes with the
    conversion. *)
Lemma to_usv_ascii_lower (s : jsstring) :
  to_usv (Service.ascii_lower s) = Service.ascii_lower (to_usv s).
Proof.
  induction s as [| c | c d s IH1 IH2] using pairs_ind.
  - done.
  - rewrite ascii_lower_cons, !to_usv_cons.
    destruct (lower_unit_surrogate c) as [-> ->].
    destruct (is_high_surrogate c); [done|].
    by destruct (is_low_surrogate c).
  - rewrite !ascii_lower_cons, to_usv_cons.
    destruct (lower_unit_surrogate c) as [Hh Hl].
    destruct (lower_unit_surrogate d) as [_ Hl'].
    rewrite Hh, Hl, Hl', <- ascii_lower_cons, IH1, IH2.
    rewrite (to_usv_cons c).
    destruct (is_high_surrogate c) eqn:Eh.
    + destruct (is_low_surrogate d) eqn:El.
      * by rewrite !ascii_lower_cons.
      * by rewrite (ascii_lower_cons 65533%N).
    + destruct (is_low_surrogate c) eqn:El.
      * by rewrite (ascii_lower_cons 65533%N).
      * by rewrite (ascii_lower_cons c).
Qed.

Lemma to_usv_eq_ci (s t : jsstring) :
  eq_ci s t -> eq_ci (to_usv s) (to_usv t).
Proof.
  rewrite <- !ascii_lower_eq, <- !to_usv_ascii_lower. by intros ->.
Qed.

(** *** The search of the service *)

#[local] Instance by_item_id_total : Total Service.by_item_id.
Proof. intros i j. unfold Service.by_item_id. lia. Qed.

#[local] Instance by_item_id_trans : Transitive Service.by_item_id.
Proof. intros i j k. unfold Service.by_item_id. lia. Qed.

Lemma search_sorted (query : jsstring) (loc : option jsstring) (its : list Item) :
  StronglySorted Service.by_item_id (Service.search query loc its).
Proof. apply Sorted_StronglySorted; [apply _|]. apply Sorted_merge_sort, _. Qed.

Lemma search_perm (query : jsstring) (loc : option jsstring) (its : list Item) :
  Service.search query loc its ≡ₚ List.filter (Service.matches query loc) its.
Proof. apply merge_sort_Permutation. Qed.

Lemma search_elem (query : jsstring) (loc : option jsstring) (its : list Item) (i : Item) :
  In i (Service.search query loc its) <->
  In i its /\ Service.matches query loc i = true.
Proof.
  rewrite <- filter_In. split; apply Permutation_in;
    [| symmetry]; apply search_perm.
Qed.

(** Queries that are equal up to case find the same items. *)
Lemma search_eq_ci (q q' : jsstring) (loc : option jsstring) (its : list Item) :
  eq_ci q q' -> Service.search q loc its = Service.search q' loc its.
Proof.
  intros H. unfold Service.search. f_equal.
  apply filter_ext. intros i. by apply matches_eq_ci.
Qed.

Lemma searchInventory_params (query : jsstring) (loc : option jsstring) :
  url (Api.searchInventory query loc) =
  PathQuery "/api/inventory/search"
    (("q"%string, query) ::
     optional_param "location" (loc ≫= or_undefined)).
Proof.
  unfold Api.searchInventory. destruct loc as [[|c l]|]; reflexivity.
Qed.

Lemma searchInventory_sent (query : jsstring) (loc : option jsstring) :
  sent_params (url (Api.searchInventory query loc)) =
  ("q"%string, to_usv query) ::
  optional_param "location" (to_usv <$> (loc ≫= or_undefined)).
Proof.
  rewrite searchInventory_params. unfold sent_params. simpl.
  by destruct (loc ≫= or_undefined).
Qed.

Lemma search_endpoint_searchInventory (query : jsstring) (loc : option jsstring)
    (its : list Item) :
  search_endpoint (Api.searchInventory query loc) its =
  Some (Service.search (to_usv query) (to_usv <$> (loc ≫= or_undefined)) its).
Proof.
  unfold search_endpoint. rewrite searchInventory_sent.
  rewrite searchInventory_params. simpl.
  by destruct (loc ≫= or_undefined).
Qed.

Lemma location_filter (loc : option jsstring) (x : jsstring) :
  (forall l, to_usv <$> loc ≫= or_undefined = Some l -> x = l) <->
  (forall l, loc = Some l -> l <> [] -> x = to_usv l).
Proof.
  destruct loc as [[|c l]|].
  - split; [by intros _ l [= <-] | by intros _ l].
  - change (to_usv <$> Some (c :: l) ≫= or_undefined)
      with (Some (to_usv (c :: l))).
    split.
    + intros H l0 [= <-] _. exact (H _ eq_refl).
    + intros H l0 [= <-]. exact (H (c :: l) eq_refl ltac:(done)).
  - split; [by intros _ l | by intros _ l].
Qed.

(** C8: a search is one GET to [/api/inventory/search] that carries, as
    USV strings, the parameter [q], set to the query (to the query
    itself exactly when it is well-formed UTF-16), and the parameter
    [location], present, with the location as its value, exactly when a
    location was supplied (an [undefined] or empty location counts as
    none), and no other parameter. The endpoint answers this request
    with the items of the store whose name or category contains the
    query up to the case of the letters, restricted to the location
    when the request names one, each as often as the store holds it
    and in ascending order of [item_id]; a query that differs from this
    one in the case of its letters only gets the same answer. *)
Theorem C8_search (query : jsstring) (loc : option jsstring) (its : list Item) :
  let r := Api.searchInventory query loc in
  let sent := sent_params (url r) in
  method r = GET /\ url_path (url r) = "/api/inventory/search"%string /\
  payload r = None /\
  params_get "q" sent = Some (to_usv query) /\
  (to_usv query = query <-> well_formed query = true) /\
  params_get "location" sent = to_usv <$> (loc ≫= or_undefined) /\
  (is_Some (params_get "location" sent) <->
   exists l, loc = Some l /\ l <> []) /\
  (forall k v, In (k, v) sent -> k = "q"%string \/ k = "location"%string) /\
  exists res,
    search_endpoint r its = Some res /\
    StronglySorted Service.by_item_id res /\
    res ≡ₚ List.filter
             (Service.matches (to_usv query) (params_get "location" sent)) its /\
    (forall i, In i res <->
       In i its /\
       (contains_ci (item_name i) (to_usv query) \/
        contains_ci (category i) (to_usv query)) /\
       (forall l, loc = Some l -> l <> [] -> location i = to_usv l)) /\
    (forall query', eq_ci query' query ->
       search_endpoint (Api.searchInventory query' loc) its = Some res).
Proof.
  cbv zeta. rewrite searchInventory_sent, searchInventory_params.
  rewrite search_endpoint_searchInventory.
  split; [done|]. split; [done|]. split; [done|]. split; [done|].
  split; [apply to_usv_well_formed|].
  assert (params_get "location"
            (("q"%string, to_usv query)
             :: optional_param "location" (to_usv <$> loc ≫= or_undefined)) =
          to_usv <$> loc ≫= or_undefined) as Hloc
    by (by destruct (loc ≫= or_undefined)).
  rewrite Hloc.
  split; [done|].
  split.
  { destruct loc as [[|c l]|]; simpl; split.
    - by intros [? ?].
    - by intros (l & [= <-] & ?).
    - intros _. by eexists.
    - by eexists.
    - by intros [? ?].
    - by intros (l & ? & ?). }
  split.
  { intros k v [[= <- _]|H]; [by left|].
    destruct loc as [[|c l]|]; simpl in H; try done.
    destruct H as [[= <- _]|[]]. by right. }
  eexists. split; [reflexivity|].
  split; [apply search_sorted|]. split; [apply search_perm|].
  split.
  - intros i. rewrite search_elem, matches_spec.
    apply and_iff_compat_l, and_iff_compat_l, location_filter.
  - intros query' H. rewrite search_endpoint_searchInventory. f_equal.
    by apply search_eq_ci, to_usv_eq_ci.
Qed.

Example search_drill :
  let mk (id : Z) (n c l : string) :=
    {| item_id := id; item_name := lit n; category := lit c; location := lit l;
       quantity_total := 1; quantity_available := 1; quantity_checked_out := 0 |} in
  let store :=
    [ mk 4 "Hammer drill" "tools" "san_jose"; mk 9 "Saw" "tools" "san_jose";
      mk 2 "Bits" "Drill parts" "san_jose"; mk 3 "Cordless Drill" "tools" "3k" ] in
  map item_id <$> search_endpoint
    (Api.searchInventory (lit "DRILL") (Some (lit "san_jose"))) store = Some [2; 4] /\
  map item_id <$> search_endpoint
    (Api.searchInventory (lit "drill") (Some [])) store = Some [2; 3; 4] /\
  map item_id <$> search_endpoint
    (Api.searchInventory (lit "Tools") None) store = Some [3; 4; 9].
Proof. vm_compute. done. Qed.

Example search_request :
  Api.searchInventory (lit "drill") (Some (lit "3k")) =
    {| method := GET;
       url := PathQuery "/api/inventory/search"
                [("q"%string, lit "drill"); ("location"%string, lit "3k")];
       payload := None |} /\
  url_params (url (Api.searchInventory (lit "drill") (Some []))) =
    [("q"%string, lit "drill")] /\
  sent_params (url (Api.searchInventory [55357; 97; 56832]%N None)) =
    [("q"%string, [65533; 97; 65533]%N)].
Proof. repeat split; reflexivity. Qed.

(** * Further properties *)

(** ** [parseInt] reads back what a template literal prints *)

Lemma lit_String (c : ascii) (s : string) : lit (String c s) = N_of_ascii c :: lit s.
Proof. reflexivity. Qed.

Lemma lit_app (a b : string) : lit (a +:+ b) = lit a ++ lit b.
Proof.
  induction a as [|c a IH]; [reflexivity|].
  change (lit (String c (a +:+ b)) = lit (String c a) ++ lit b).
  by rewrite !lit_String, IH.
Qed.

Lemma pretty_N_char_code (d : N) :
  (d < 10)%N -> N_of_ascii (pretty_N_char d) = (48 + d)%N.
Proof.
  intros H.
  assert (d = 0 \/ d = 1 \/ d = 2 \/ d = 3 \/ d = 4 \/ d = 5 \/ d = 6 \/
          d = 7 \/ d = 8 \/ d = 9)%N as Hd by lia.
  repeat destruct Hd as [-> | Hd]; try subst d; reflexivity.
Qed.

Lemma digit_value_decimal (c : code_unit) :
  is_decimal c = true -> digit_value 10 c = Some (c - 48)%N.
Proof.
  unfold is_decimal, digit_value. intros H. rewrite H. simpl.
  apply andb_true_iff in H as [H1%N.leb_le H2%N.leb_le].
  by destruct (N.ltb_spec (c - 48) 10); [|lia].
Qed.

Lemma digit_value_not_decimal (c : code_unit) :
  is_decimal c = false -> digit_value 10 c = None.
Proof.
  unfold is_decimal, digit_value. intros ->.
  destruct ((97 <=? c)%N && (c <=? 122)%N) eqn:E1.
  - apply andb_true_iff in E1 as [H1%N.leb_le H2%N.leb_le].
    by destruct (N.ltb_spec (c - 87) 10); [lia|].
  - destruct ((65 <=? c)%N && (c <=? 90)%N) eqn:E2; [|done].
    apply andb_true_iff in E2 as [H1%N.leb_le H2%N.leb_le].
    by destruct (N.ltb_spec (c - 55) 10); [lia|].
Qed.

Lemma is_decimal_not_space (c : code_unit) :
  is_decimal c = true ->
  is_white_space c = false /\ (c =? 45)%N = false /\ (c =? 43)%N = false /\
  (c =? 120)%N = false /\ (c =? 88)%N = false /\ (c =? 47)%N = false.
Proof.
  unfold is_decimal, is_white_space.
  intros [H1%N.leb_le H2%N.leb_le]%andb_true_iff.
  repeat match goal with
         | |- context [(?a <=? ?b)%N] => destruct (N.leb_spec a b); try lia
         | |- context [(?a =? ?b)%N] => destruct (N.eqb_spec a b); try lia
         end; simpl; done.
Qed.

(** The digits [pretty_N_go] puts in front of a string. *)
Lemma parse_pretty_N_go (n : N) (s : string) :
  (0 < n)%N ->
  parse_digits 10 (lit (pretty_N_go n s)) None = parse_digits 10 (lit s) (Some n).
Proof.
  revert s. induction (N.lt_wf_0 n) as [n _ IH]. intros s Hn.
  rewrite pretty_N_go_step by done.
  assert (n `mod` 10 < 10)%N as Hm by (apply N.mod_lt; lia).
  pose proof (N.div_mod n 10 ltac:(lia)) as Hdm.
  assert (digit_value 10 (N_of_ascii (pretty_N_char (n `mod` 10))) = Some (n `mod` 10)%N) as Hd.
  { revert Hm. generalize (n `mod` 10)%N. intros m Hm.
    rewrite pretty_N_char_code by done. rewrite digit_value_decimal.
    - f_equal. lia.
    - unfold is_decimal. apply andb_true_iff. split; apply N.leb_le; lia. }
  destruct (N.eq_dec (n `div` 10)%N 0%N) as [E|E].
  - rewrite E, pretty_N_go_0, lit_String. cbn [parse_digits]. rewrite Hd.
    assert ((10 * default 0 None + n `mod` 10)%N = n) as ->
      by (change (default 0%N None) with 0%N; lia).
    done.
  - rewrite IH; [| apply N.div_lt; lia | lia].
    rewrite lit_String. cbn [parse_digits]. rewrite Hd.
    assert ((10 * default 0 (Some (n `div` 10)) + n `mod` 10)%N = n) as ->
      by (change (default 0%N (Some (n `div` 10)%N)) with (n `div` 10)%N; lia).
    done.
Qed.

Lemma decimal_pretty_N_go (n : N) (s : string) :
  forallb is_decimal (lit s) = true ->
  forallb is_decimal (lit (pretty_N_go n s)) = true.
Proof.
  revert s. induction (N.lt_wf_0 n) as [n _ IH]. intros s Hs.
  destruct (N.eq_dec n 0%N) as [->|Hn]; [by rewrite pretty_N_go_0|].
  rewrite pretty_N_go_step by lia. apply IH; [apply N.div_lt; lia|].
  rewrite lit_String. cbn [forallb]. rewrite Hs, andb_true_r.
  assert (n `mod` 10 < 10)%N as Hm by (apply N.mod_lt; lia).
  revert Hm. generalize (n `mod` 10)%N. intros m Hm.
  rewrite pretty_N_char_code by done.
  unfold is_decimal. apply andb_true_iff. split; apply N.leb_le; lia.
Qed.

Lemma pretty_N_decimal (n : N) :
  forallb is_decimal (lit (pretty n)) = true /\ lit (pretty n) <> [] /\
  parse_digits 10 (lit (pretty n)) None = Some n.
Proof.
  assert (parse_digits 10 (lit (pretty n)) None = Some n) as Hp.
  { unfold pretty, pretty_N. destruct (decide (n = 0%N)) as [->|Hn]; [done|].
    by rewrite parse_pretty_N_go by lia. }
  split; [|split; [|done]].
  - unfold pretty, pretty_N. destruct (decide (n = 0%N)) as [->|Hn]; [done|].
    by apply decimal_pretty_N_go.
  - intros E. by rewrite E in Hp.
Qed.

Lemma read_radix_decimal (l : jsstring) :
  forallb is_decimal l = true -> read_radix l = (10%N, l).
Proof.
  destruct l as [|c [|x l]]; try done. cbn [forallb read_radix].
  intros [_ [Hx _]%andb_true_iff]%andb_true_iff.
  destruct (is_decimal_not_space x Hx) as (_ & _ & _ & -> & -> & _).
  by rewrite andb_false_r.
Qed.

Lemma read_radix_no_digit (l : jsstring) :
  forallb (fun c => negb (is_decimal c)) l = true -> read_radix l = (10%N, l).
Proof.
  destruct l as [|c [|x l]]; try done. cbn [forallb read_radix].
  intros [Hc%negb_true_iff _]%andb_true_iff.
  by destruct (N.eqb_spec c 48) as [->|].
Qed.

(** [parseInt] of a string of decimal digits. *)
Lemma parseInt_decimal (l : jsstring) :
  forallb is_decimal l = true ->
  parseInt l = Z.of_N <$> parse_digits 10 l None.
Proof.
  intros H. unfold parseInt.
  assert (read_sign (trimStart l) = (false, l)) as ->.
  { destruct l as [|c l]; [done|]. cbn [forallb] in H.
    apply andb_true_iff in H as [Hc _].
    destruct (is_decimal_not_space c Hc) as (Hw & H45 & H43 & _).
    cbn [trimStart read_sign]. rewrite Hw. cbn [read_sign]. by rewrite H45, H43. }
  rewrite (read_radix_decimal l H).
  by destruct (parse_digits 10 l None).
Qed.

Lemma parseInt_negative (l : jsstring) :
  forallb is_decimal l = true ->
  parseInt (45%N :: l) = (fun n => - Z.of_N n) <$> parse_digits 10 l None.
Proof.
  intros H. unfold parseInt.
  change (read_sign (trimStart (45%N :: l))) with (true, l). cbv beta iota.
  rewrite (read_radix_decimal l H).
  by destruct (parse_digits 10 l None).
Qed.

(** Round trip: [parseInt] reads back the decimal form of an integer. *)
Lemma parseInt_pretty (z : Z) : parseInt (lit (pretty z)) = Some z.
Proof.
  destruct z as [|p|p]; [reflexivity| |].
  - change (pretty (Z.pos p)) with (pretty (N.pos p)).
    destruct (pretty_N_decimal (N.pos p)) as (Hd & _ & Hp).
    by rewrite parseInt_decimal, Hp.
  - change (pretty (Z.neg p)) with ("-" +:+ pretty (N.pos p))%string.
    rewrite lit_app. change (lit "-") with [45%N]. cbn [app].
    destruct (pretty_N_decimal (N.pos p)) as (Hd & _ & Hp).
    by rewrite parseInt_negative, Hp.
Qed.

Lemma trimStart_forallb (p : code_unit -> bool) (s : jsstring) :
  forallb p s = true -> forallb p (trimStart s) = true.
Proof.
  induction s as [|c s IH]; [done|]. cbn [forallb trimStart].
  intros [Hc Hs]%andb_true_iff.
  destruct (is_white_space c); [by apply IH|]. cbn [forallb]. by rewrite Hc, Hs.
Qed.

(** A string without a decimal digit does not parse. *)
Lemma parseInt_no_digit (s : jsstring) :
  forallb (fun c => negb (is_decimal c)) s = true -> parseInt s = None.
Proof.
  intros H%trimStart_forallb. unfold parseInt.
  assert (exists b s2, read_sign (trimStart s) = (b, s2) /\
            forallb (fun c => negb (is_decimal c)) s2 = true) as (b & s2 & -> & H2).
  { destruct (trimStart s) as [|c r]; [by exists false, []|].
    cbn [forallb] in H. apply andb_true_iff in H as [Hc Hr]. cbn [read_sign].
    destruct (c =? 45)%N; [by exists true, r|].
    destruct (c =? 43)%N; [by exists false, r|].
    exists false, (c :: r). split; [done|]. cbn [forallb]. by rewrite Hc, Hr. }
  rewrite (read_radix_no_digit s2 H2).
  destruct s2 as [|c r]; [done|]. cbn [forallb] in H2.
  apply andb_true_iff in H2 as [Hc%negb_true_iff _].
  cbn [parse_digits]. by rewrite digit_value_not_decimal.
Qed.

(** ** From an item link to the queries of the details page *)

Lemma strip_prefix_app (p s : jsstring) : Routes.strip_prefix p (p ++ s) = Some s.
Proof.
  induction p as [|a p IH]; [by destruct s|].
  simpl. by rewrite N.eqb_refl.
Qed.

Lemma decimal_no_slash (l : jsstring) :
  forallb is_decimal l = true -> existsb (fun c => (c =? 47)%N) l = false.
Proof.
  induction l as [|c l IH]; [done|]. cbn [forallb existsb].
  intros [Hc Hl]%andb_true_iff.
  destruct (is_decimal_not_space c Hc) as (_ & _ & _ & _ & _ & ->). by apply IH.
Qed.

(** The decimal form of an integer is one path segment. *)
Lemma pretty_Z_segment (z : Z) :
  truthy (lit (pretty z)) = true /\
  existsb (fun c => (c =? 47)%N) (lit (pretty z)) = false.
Proof.
  destruct z as [|p|p]; [done| |].
  - change (pretty (Z.pos p)) with (pretty (N.pos p)).
    destruct (pretty_N_decimal (N.pos p)) as (Hd & Hne & _).
    split; [by apply truthy_true | by apply decimal_no_slash].
  - change (pretty (Z.neg p)) with ("-" +:+ pretty (N.pos p))%string.
    rewrite lit_app. change (lit "-") with [45%N]. cbn [app].
    destruct (pretty_N_decimal (N.pos p)) as (Hd & _ & _).
    split; [done|]. cbn [existsb]. by apply decimal_no_slash.
Qed.

Lemma itemParam_itemLink (id : Z) :
  Routes.itemParam (lit (Routes.itemLink id)) = Some (lit (pretty id)).
Proof.
  unfold Routes.itemParam, Routes.itemLink. rewrite lit_app, strip_prefix_app.
  destruct (pretty_Z_segment id) as [-> ->]. done.
Qed.

Lemma itemId_of_link (id : Z) :
  ItemDetailsQueries.itemId (Some (lit (pretty id))) = Some id.
Proof.
  unfold ItemDetailsQueries.itemId.
  destruct (pretty_Z_segment id) as [-> _]. apply parseInt_pretty.
Qed.

(** X1: following the link of an item opens the details page of that
    item. The route parameter of [/item/<item_id>] parses back to the
    item's id; the page then asks for the item and for its last 20
    history records under that id, unless the id is 0, for which both
    queries stay disabled. *)
Theorem X1_item_link_opens_item (item : Item) :
  safe_integer (item_id item) ->
  let id := Routes.itemParam (lit (Routes.itemLink (item_id item))) in
  ItemDetailsQueries.itemId id = Some (item_id item) /\
  ItemDetailsQueries.queries id =
    if item_id item =? 0 then []
    else [ {| method := GET;
              url := Path ("/api/inventory/" +:+ pretty (item_id item));
              payload := None |};
           {| method := GET;
              url := Path ("/api/checkout/item/" +:+ pretty (item_id item)
                           +:+ "/history?limit=20");
              payload := None |} ].
Proof.
  intros _. cbv zeta. rewrite itemParam_itemLink.
  split; [apply itemId_of_link|].
  unfold ItemDetailsQueries.queries. rewrite itemId_of_link.
  unfold ItemDetailsQueries.enabled. by destruct (item_id item =? 0).
Qed.

Lemma X1_witness :
  ItemDetailsQueries.queries (Routes.itemParam (lit "/item/1")) =
    [ {| method := GET; url := Path "/api/inventory/1"; payload := None |};
      {| method := GET; url := Path "/api/checkout/item/1/history?limit=20";
         payload := None |} ].
Proof.
  refine (proj2 (X1_item_link_opens_item drill _)).
  unfold safe_integer. simpl. lia.
Defined.

(** Reading stops at the first character that is not a digit. *)
Lemma parse_digits_stop (l rest : jsstring) (acc : option N) :
  forallb is_decimal l = true ->
  match rest with c :: _ => is_decimal c = false | [] => True end ->
  parse_digits 10 (l ++ rest) acc = parse_digits 10 l acc.
Proof.
  intros Hl Hrest. revert acc. induction l as [|c l IH]; intros acc.
  - destruct rest as [|c rest]; [done|]. cbn [app parse_digits].
    by rewrite digit_value_not_decimal.
  - cbn [forallb] in Hl. apply andb_true_iff in Hl as [Hc Hl].
    cbn [app parse_digits]. rewrite digit_value_decimal by done. by apply IH.
Qed.

Lemma parseInt_decimal_prefix (l rest : jsstring) :
  l <> [] -> forallb is_decimal l = true ->
  match rest with
  | c :: _ => is_decimal c = false /\ c <> 120%N /\ c <> 88%N
  | [] => True
  end ->
  parseInt (l ++ rest) = Z.of_N <$> parse_digits 10 l None.
Proof.
  intros Hne Hl Hrest. destruct l as [|c l]; [done|].
  cbn [forallb] in Hl. apply andb_true_iff in Hl as [Hc Hl].
  destruct (is_decimal_not_space c Hc) as (Hw & H45 & H43 & _).
  unfold parseInt. cbn [app trimStart]. rewrite Hw. cbn [read_sign].
  rewrite H45, H43.
  assert (read_radix (c :: l ++ rest) = (10%N, c :: l ++ rest)) as ->.
  { destruct l as [|x l].
    - destruct rest as [|x rest]; [done|]. cbn [app read_radix].
      destruct Hrest as (_ & H1%N.eqb_neq & H2%N.eqb_neq).
      by rewrite H1, H2, andb_false_r.
    - cbn [forallb] in Hl. apply andb_true_iff in Hl as [Hx _].
      destruct (is_decimal_not_space x Hx) as (_ & _ & _ & H120 & H88 & _).
      cbn [app read_radix]. by rewrite H120, H88, andb_false_r. }
  change (c :: l ++ rest) with ((c :: l) ++ rest).
  rewrite parse_digits_stop.
  - by destruct (parse_digits 10 (c :: l) None).
  - cbn [forallb]. by rewrite Hc, Hl.
  - destruct rest; [done|]. tauto.
Qed.

(** X2: the details page asks nothing of the server when the route
    carries no usable id: without a parameter, with an empty one, with
    the id 0, and with any text that holds no decimal digit, the two
    queries are disabled. The numeral of a safe integer followed by
    other text (not an [x], which would make [0x] a hexadecimal prefix)
    is read up to that text. *)
Theorem X2_item_queries_disabled :
  ItemDetailsQueries.queries None = [] /\
  ItemDetailsQueries.queries (Some []) = [] /\
  ItemDetailsQueries.queries (Some (lit "0")) = [] /\
  (forall s, forallb (fun c => negb (is_decimal c)) s = true ->
             ItemDetailsQueries.queries (Some s) = []) /\
  (forall (n : N) (rest : jsstring),
     safe_integer (Z.of_N n) ->
     match rest with
     | c :: _ => is_decimal c = false /\ c <> 120%N /\ c <> 88%N
     | [] => True
     end ->
     ItemDetailsQueries.itemId (Some (lit (pretty n) ++ rest)) = Some (Z.of_N n)).
Proof.
  split; [done|]. split; [done|]. split; [done|]. split.
  - intros s Hs. unfold ItemDetailsQueries.queries, ItemDetailsQueries.itemId.
    destruct s as [|c s]; [done|]. cbn [truthy]. by rewrite parseInt_no_digit.
  - intros n rest _ Hrest. unfold ItemDetailsQueries.itemId.
    destruct (pretty_N_decimal n) as (Hd & Hne & Hp).
    assert (truthy (lit (pretty n) ++ rest) = true) as ->.
    { apply truthy_true. by destruct (lit (pretty n)). }
    by rewrite parseInt_decimal_prefix, Hp.
Qed.

Lemma X2_witness :
  ItemDetailsQueries.itemId (Some (lit (pretty 12%N) ++ lit "abc")) = Some 12.
Proof.
  refine (proj2 (proj2 (proj2 (proj2 X2_item_queries_disabled)))
            12%N (lit "abc") _ _).
  - unfold safe_integer. simpl. lia.
  - vm_compute. repeat split; discriminate.
Defined.

Example item_route_examples :
  ItemDetailsQueries.itemId (Some (lit "12abc")) = Some 12 /\
  ItemDetailsQueries.itemId (Some (lit " -7")) = Some (-7) /\
  ItemDetailsQueries.itemId (Some (lit "0x1f")) = Some 31 /\
  ItemDetailsQueries.itemId (Some (lit "abc")) = None /\
  Routes.itemParam (lit "/item/12/edit") = None /\
  Routes.itemParam (lit "/inventory") = None.
Proof. vm_compute. done. Qed.

(** ** The quantity field *)

Lemma onChange_quantity_nonzero (parsed : option Z) (fd : CheckoutModal.FormData) :
  CheckoutModal.quantity
    (CheckoutModal.onChange (CheckoutModal.ChangeQuantity parsed) fd) <> 0.
Proof.
  simpl. destruct parsed as [n|]; [|done].
  by destruct (Z.eqb_spec n 0).
Qed.

(** X3: what the quantity field stores. Whatever is typed, the stored
    quantity is never 0 and the other fields are untouched; a text
    without a decimal digit (an empty field, a lone sign, letters)
    stores 1; the decimal form of an integer stores that integer, and 1
    for 0; negative numerals are stored as they are. *)
Theorem X3_quantity_input (v : jsstring) (fd : CheckoutModal.FormData) :
  let fd' := CheckoutModal.onChange (quantityInput v) fd in
  CheckoutModal.quantity fd' <> 0 /\
  CheckoutModal.ldap fd' = CheckoutModal.ldap fd /\
  CheckoutModal.expectedReturn fd' = CheckoutModal.expectedReturn fd /\
  CheckoutModal.condition fd' = CheckoutModal.condition fd /\
  CheckoutModal.notes fd' = CheckoutModal.notes fd /\
  (forallb (fun c => negb (is_decimal c)) v = true ->
   CheckoutModal.quantity fd' = 1) /\
  (forall z, safe_integer z -> v = lit (pretty z) ->
             CheckoutModal.quantity fd' = if z =? 0 then 1 else z).
Proof.
  cbv zeta. split; [apply onChange_quantity_nonzero|].
  do 4 (split; [done|]). split.
  - intros H. unfold quantityInput. by rewrite parseInt_no_digit.
  - intros z _ ->. unfold quantityInput. by rewrite parseInt_pretty.
Qed.

Example quantity_inputs :
  map (fun v => CheckoutModal.quantity
                  (CheckoutModal.onChange (quantityInput (lit v))
                     CheckoutModal.initialFormData))
      ["3"; ""; "0"; "-2"; "2.5"; "1e3"; "abc"]%string
  = [3; 1; 1; -2; 2; 1; 1].
Proof. vm_compute. reflexivity. Qed.

(** The form of the details page never holds the quantity 0. *)
Lemma steps_quantity_nonzero (evs : list ItemDetailsPage.Event) (st : ItemDetailsPage.State) :
  CheckoutModal.quantity (CheckoutModal.formData (ItemDetailsPage.modal st)) <> 0 ->
  CheckoutModal.quantity
    (CheckoutModal.formData (ItemDetailsPage.modal (fst (ItemDetailsPage.steps st evs)))) <> 0.
Proof.
  revert st. induction evs as [|ev evs IH]; intros st H; [done|].
  simpl. destruct (ItemDetailsPage.step st ev) as [st1 r1] eqn:E1.
  destruct (ItemDetailsPage.steps st1 evs) as [st2 r2] eqn:E2.
  specialize (IH st1). rewrite E2 in IH. simpl in *. apply IH.
  destruct ev; simpl in E1.
  - unfold click in E1.
    destruct (button_disabled _); [by injection E1 as <- _|].
    destruct (button_onClick _) as [[b|j]|]; by injection E1 as <- _.
  - by injection E1 as <- _.
  - injection E1 as <- _. simpl. destruct c; try done.
    apply onChange_quantity_nonzero.
  - unfold CheckoutModal.handleSubmit, CheckoutModal.validate in E1.
    destruct (negb _); by injection E1 as <- _.
  - unfold CheckoutModal.handleClose in E1.
    destruct (negb _); by injection E1 as <- _.
  - by injection E1 as <- _.
  - by injection E1 as <- _.
Qed.

(** X4: on the details page, from the first render on and whatever the
    user does, the check-out form never holds the quantity 0; so
    [validate] reports "Quantity must be at least 1" exactly for the
    negative quantities. *)
Theorem X4_quantity_never_zero (i : Item) (evs : list ItemDetailsPage.Event) :
  let fd := CheckoutModal.formData
              (ItemDetailsPage.modal
                 (fst (ItemDetailsPage.steps (ItemDetailsPage.initial i) evs))) in
  CheckoutModal.quantity fd <> 0 /\
  (forall j : Item,
     CheckoutModal.newErrors j fd !! "quantity"%string
       = Some "Quantity must be at least 1"%string
     <-> CheckoutModal.quantity fd < 0).
Proof.
  cbv zeta.
  pose proof (steps_quantity_nonzero evs (ItemDetailsPage.initial i)) as H.
  specialize (H ltac:(done)).
  split; [done|]. intros j. rewrite newErrors_quantity.
  destruct (Z.ltb_spec (CheckoutModal.quantity
    (CheckoutModal.formData (ItemDetailsPage.modal
       (fst (ItemDetailsPage.steps (ItemDetailsPage.initial i) evs))))) 1).
  - split; [lia | done].
  - destruct (_ <? _); split; (discriminate || lia).
Qed.

(** ** What a check-out request carries *)

Lemma trimStart_suffix (s : jsstring) : exists p, s = p ++ trimStart s.
Proof.
  induction s as [|c s [p IH]]; [by exists []|]. cbn [trimStart].
  destruct (is_white_space c); [|by exists []].
  exists (c :: p). simpl. by rewrite <- IH.
Qed.

Lemma trimEnd_prefix (s : jsstring) : exists t, s = trimEnd s ++ t.
Proof.
  unfold trimEnd. destruct (trimStart_suffix (rev s)) as [p Hp].
  exists (rev p). rewrite <- rev_app_distr, <- Hp. by rewrite rev_involutive.
Qed.

(** [trim] leaves no white space at either end. *)
Lemma trim_ends (s : jsstring) :
  (forall c r, trim s = c :: r -> is_white_space c = false) /\
  (forall c r, rev (trim s) = c :: r -> is_white_space c = false).
Proof.
  split; intros c r H.
  - destruct (trimEnd_prefix (trimStart s)) as [t Ht].
    fold (trim s) in Ht. rewrite H in Ht. simpl in Ht.
    by apply trimStart_head in Ht.
  - unfold trim, trimEnd in H. rewrite rev_involutive in H.
    by apply trimStart_head in H.
Qed.

Lemma trim_trimmed_nonblank (s : jsstring) :
  trim s <> [] -> trimmed_nonblank (trim s).
Proof. intros H. split; [done|]. apply trim_ends. Qed.

(** X5: what a check-out request never carries. Every request the form
    sends names the displayed item, a quantity between 1 and the item's
    stock, and an LDAP handle that is not empty and has no white space
    at either end; notes, when sent, are not empty and trimmed likewise,
    and an expected return date, when sent, is not empty. *)
Theorem X5_checkout_request_sound (item : Item) (st : CheckoutModal.State) (r : Request) :
  In r (snd (CheckoutModal.handleSubmit item st)) ->
  exists d,
    r = Api.checkoutItem d /\
    cf_item_id d = item_id item /\
    1 <= cf_quantity d <= quantity_available item /\
    trimmed_nonblank (cf_user_ldap d) /\
    (forall n, cf_notes d = Some n -> trimmed_nonblank n) /\
    cf_expected_return_datetime d <> Some [].
Proof.
  intros Hr.
  destruct (snd (CheckoutModal.validate item st)) eqn:Ev.
  - rewrite (handleSubmit_accepted item st Ev) in Hr.
    destruct Hr as [<-|[]].
    apply validate_true_iff in Ev as [Hl Hq].
    unfold ldap_blank in Hl. unfold quantity_refused in Hq.
    eexists. split; [reflexivity|]. simpl.
    split; [done|]. split; [lia|]. split; [by apply trim_trimmed_nonblank|].
    split.
    + intros n Hn. unfold or_undefined in Hn.
      destruct (truthy (trim (CheckoutModal.notes (CheckoutModal.formData st)))) eqn:Et;
        [|done].
      injection Hn as <-. apply trim_trimmed_nonblank. by apply truthy_true.
    + unfold or_undefined.
      by destruct (CheckoutModal.expectedReturn (CheckoutModal.formData st)).
  - rewrite (handleSubmit_refused item st Ev) in Hr. destruct Hr.
Qed.

Lemma X5_witness :
  exists d,
    Api.checkoutItem (CheckoutModal.submitted drill (CheckoutModal.formData filled_form))
      = Api.checkoutItem d /\
    cf_item_id d = 1 /\
    1 <= cf_quantity d <= 3 /\
    trimmed_nonblank (cf_user_ldap d) /\
    (forall n, cf_notes d = Some n -> trimmed_nonblank n) /\
    cf_expected_return_datetime d <> Some [].
Proof.
  apply (X5_checkout_request_sound drill filled_form). left. reflexivity.
Defined.

(** ** The life of a check-out on the details page *)

Lemma step_submit_accepted (st : ItemDetailsPage.State) :
  snd (CheckoutModal.validate (ItemDetailsPage.item st) (ItemDetailsPage.modal st)) = true ->
  ItemDetailsPage.step st ItemDetailsPage.Submit =
    ({| ItemDetailsPage.item := ItemDetailsPage.item st;
        ItemDetailsPage.isCheckoutModalOpen := ItemDetailsPage.isCheckoutModalOpen st;
        ItemDetailsPage.modal :=
          {| CheckoutModal.formData := CheckoutModal.formData (ItemDetailsPage.modal st);
             CheckoutModal.errors := ∅;
             CheckoutModal.isPending := true |} |},
     [Api.checkoutItem
        (CheckoutModal.submitted (ItemDetailsPage.item st)
           (CheckoutModal.formData (ItemDetailsPage.modal st)))]).
Proof.
  intros Hv. simpl. unfold CheckoutModal.handleSubmit.
  destruct (CheckoutModal.validate _ _) as [m ok] eqn:E. simpl in Hv. subst ok.
  simpl. unfold CheckoutModal.validate in E. injection E as <- E. simpl.
  apply Nat.eqb_eq, map_size_empty_iff in E. by rewrite E.
Qed.

(** X6: a check-out that succeeds leaves the page ready for the next
    one. From a form that passes [validate], submitting and receiving
    the success sends the one request, closes the modal, and puts the
    form back to its defaults (no LDAP handle, quantity 1, condition
    good, no errors, nothing pending). *)
Theorem X6_checkout_success_resets (st : ItemDetailsPage.State) :
  snd (CheckoutModal.validate (ItemDetailsPage.item st) (ItemDetailsPage.modal st)) = true ->
  ItemDetailsPage.steps st [ItemDetailsPage.Submit; ItemDetailsPage.MutationSuccess] =
    ({| ItemDetailsPage.item := ItemDetailsPage.item st;
        ItemDetailsPage.isCheckoutModalOpen := false;
        ItemDetailsPage.modal := CheckoutModal.initial |},
     [Api.checkoutItem
        (CheckoutModal.submitted (ItemDetailsPage.item st)
           (CheckoutModal.formData (ItemDetailsPage.modal st)))]).
Proof.
  intros Hv. cbn [ItemDetailsPage.steps]. rewrite (step_submit_accepted st Hv).
  reflexivity.
Qed.

Lemma X6_witness :
  fst (ItemDetailsPage.steps (opened drill filled_form)
         [ItemDetailsPage.Submit; ItemDetailsPage.MutationSuccess]) =
    ItemDetailsPage.initial drill.
Proof.
  exact (f_equal fst (X6_checkout_success_resets (opened drill filled_form) eq_refl)).
Defined.

Lemma errorMessage_nonempty (fallback : string) (reported : option string) :
  fallback <> ""%string -> errorMessage fallback reported <> ""%string.
Proof.
  intros Hf. unfold errorMessage. destruct reported as [m|]; [|done].
  destruct (String.eqb_spec m ""); done.
Qed.

(** X7: a check-out that fails keeps the form for another try. From a
    form that passes [validate], after the submission and the failure
    the modal is as it was, the entered data are kept, nothing is
    pending, and the only error is the one under [submit], which is the
    reported message or, when there is none, "Failed to checkout item",
    and never empty; submitting again sends the same request once more
    and clears the error. *)
Theorem X7_checkout_failure_keeps_form
    (st : ItemDetailsPage.State) (reported : option string) :
  snd (CheckoutModal.validate (ItemDetailsPage.item st) (ItemDetailsPage.modal st)) = true ->
  let msg := errorMessage "Failed to checkout item" reported in
  let req := Api.checkoutItem
               (CheckoutModal.submitted (ItemDetailsPage.item st)
                  (CheckoutModal.formData (ItemDetailsPage.modal st))) in
  msg <> ""%string /\
  ItemDetailsPage.steps st
    [ItemDetailsPage.Submit; ItemDetailsPage.MutationError msg] =
    ({| ItemDetailsPage.item := ItemDetailsPage.item st;
        ItemDetailsPage.isCheckoutModalOpen := ItemDetailsPage.isCheckoutModalOpen st;
        ItemDetailsPage.modal :=
          {| CheckoutModal.formData := CheckoutModal.formData (ItemDetailsPage.modal st);
             CheckoutModal.errors := {[ "submit"%string := msg ]};
             CheckoutModal.isPending := false |} |},
     [req]) /\
  ItemDetailsPage.steps st
    [ItemDetailsPage.Submit; ItemDetailsPage.MutationError msg; ItemDetailsPage.Submit] =
    ({| ItemDetailsPage.item := ItemDetailsPage.item st;
        ItemDetailsPage.isCheckoutModalOpen := ItemDetailsPage.isCheckoutModalOpen st;
        ItemDetailsPage.modal :=
          {| CheckoutModal.formData := CheckoutModal.formData (ItemDetailsPage.modal st);
             CheckoutModal.errors := ∅;
             CheckoutModal.isPending := true |} |},
     [req; req]).
Proof.
  intros Hv. cbv zeta. split; [by apply errorMessage_nonempty|].
  set (msg := errorMessage "Failed to checkout item" reported).
  pose proof (step_submit_accepted st Hv) as E1.
  set (st1 := {| ItemDetailsPage.item := ItemDetailsPage.item st;
                 ItemDetailsPage.isCheckoutModalOpen := ItemDetailsPage.isCheckoutModalOpen st;
                 ItemDetailsPage.modal :=
                   {| CheckoutModal.formData := CheckoutModal.formData (ItemDetailsPage.modal st);
                      CheckoutModal.errors := ∅;
                      CheckoutModal.isPending := true |} |}) in *.
  set (st2 := {| ItemDetailsPage.item := ItemDetailsPage.item st;
                 ItemDetailsPage.isCheckoutModalOpen := ItemDetailsPage.isCheckoutModalOpen st;
                 ItemDetailsPage.modal :=
                   {| CheckoutModal.formData := CheckoutModal.formData (ItemDetailsPage.modal st);
                      CheckoutModal.errors := {[ "submit"%string := msg ]};
                      CheckoutModal.isPending := false |} |}).
  assert (ItemDetailsPage.step st1 (ItemDetailsPage.MutationError msg) = (st2, [])) as E2
    by reflexivity.
  pose proof (step_submit_accepted st2 Hv) as E3.
  cbn [ItemDetailsPage.steps]. rewrite E1, E2. split; [reflexivity|].
  rewrite E3. reflexivity.
Qed.

Lemma X7_witness :
  snd (ItemDetailsPage.steps (opened drill filled_form)
         [ItemDetailsPage.Submit;
          ItemDetailsPage.MutationError (errorMessage "Failed to checkout item" None);
          ItemDetailsPage.Submit]) =
    [ Api.checkoutItem (CheckoutModal.submitted drill (CheckoutModal.formData filled_form));
      Api.checkoutItem (CheckoutModal.submitted drill (CheckoutModal.formData filled_form)) ].
Proof.
  exact (f_equal snd
    (proj2 (proj2 (X7_checkout_failure_keeps_form (opened drill filled_form) None eq_refl)))).
Defined.

(** X8: closing the modal. While a check-out is pending, Cancel and the
    close button do nothing: in any pending state a close event changes
    nothing and sends nothing, and after an accepted submission any
    number of close events leave the form, the open modal and the
    pending flag as they are and send nothing more. While nothing is
    pending, closing shuts the modal and throws the entered data and
    the errors away, whatever the form holds. *)
Theorem X8_close_guard (st : ItemDetailsPage.State) (n : nat) :
  (CheckoutModal.isPending (ItemDetailsPage.modal st) = true ->
   ItemDetailsPage.step st ItemDetailsPage.Close = (st, [])) /\
  (snd (CheckoutModal.validate (ItemDetailsPage.item st) (ItemDetailsPage.modal st)) = true ->
   ItemDetailsPage.steps st (ItemDetailsPage.Submit :: repeat ItemDetailsPage.Close n) =
     ItemDetailsPage.steps st [ItemDetailsPage.Submit]) /\
  (CheckoutModal.isPending (ItemDetailsPage.modal st) = false ->
   ItemDetailsPage.step st ItemDetailsPage.Close =
     ({| ItemDetailsPage.item := ItemDetailsPage.item st;
         ItemDetailsPage.isCheckoutModalOpen := false;
         ItemDetailsPage.modal := CheckoutModal.initial |}, [])).
Proof.
  split; [|split].
  - intros Hp. simpl. unfold CheckoutModal.handleClose. rewrite Hp. simpl.
    by destruct st.
  - intros Hv. cbn [ItemDetailsPage.steps]. rewrite (step_submit_accepted st Hv).
    set (st1 := {| ItemDetailsPage.item := _ |}).
    assert (ItemDetailsPage.steps st1 (repeat ItemDetailsPage.Close n) = (st1, [])) as ->.
    { induction n as [|n IH]; [done|]. cbn [repeat ItemDetailsPage.steps].
      change (ItemDetailsPage.step st1 ItemDetailsPage.Close) with (st1, @nil Request).
      cbv beta iota. by rewrite IH. }
    done.
  - intros Hp. simpl. unfold CheckoutModal.handleClose. rewrite Hp. simpl.
    unfold CheckoutModal.resetForm, CheckoutModal.initial. by rewrite Hp.
Qed.

Lemma X8_witness :
  ItemDetailsPage.step (opened drill filled_form) ItemDetailsPage.Close =
    (ItemDetailsPage.initial drill, []) /\
  ItemDetailsPage.step (ItemDetailsPage.initial drill) ItemDetailsPage.Close =
    (ItemDetailsPage.initial drill, []).
Proof.
  split.
  - exact (proj2 (proj2 (X8_close_guard (opened drill filled_form) 3)) eq_refl).
  - exact (proj2 (proj2 (X8_close_guard (ItemDetailsPage.initial drill) 0)) eq_refl).
Defined.

(** ** The inventory page *)

(** X9: [getInventory] is one GET to [/api/inventory] that carries no
    body; its first parameter is [location], always present, even when
    the location is empty; [ldap] follows exactly when an LDAP handle
    that is not empty was passed; there is no other parameter. *)
Theorem X9_getInventory_request (loc : jsstring) (ldap : option jsstring) :
  let r := Api.getInventory loc ldap in
  method r = GET /\ url_path (url r) = "/api/inventory"%string /\
  payload r = None /\ body r = None /\
  url_params (url r) =
    ("location"%string, loc) :: optional_param "ldap" (ldap ≫= or_undefined) /\
  params_get "location" (url_params (url r)) = Some loc /\
  (is_Some (params_get "ldap" (url_params (url r))) <->
   exists l, ldap = Some l /\ l <> []).
Proof.
  cbv zeta.
  assert (Api.getInventory loc ldap =
          apiClient_get
            (PathQuery "/api/inventory"
               (("location"%string, loc) :: optional_param "ldap" (ldap ≫= or_undefined)))
            None) as ->.
  { unfold Api.getInventory. by destruct ldap as [[|c l]|]. }
  simpl. do 6 (split; [done|]).
  destruct ldap as [[|c l]|]; simpl; split.
  - by intros [? ?].
  - by intros (l & [= <-] & ?).
  - by eexists.
  - by eexists.
  - by intros [? ?].
  - by intros (l & ? & ?).
Qed.

(** X10: what the inventory page asks for. At a location of the
    navigation bar, an empty (debounced) search text lists the inventory
    of the location, with the location as only parameter; any other
    text, white space included and untrimmed, searches for exactly that
    text at that location. Either way the request is a GET that names
    the location and never an LDAP handle, and a search never carries an
    empty [q]. *)
Theorem X10_inventory_query (loc text : jsstring) :
  In loc Navbar.locations ->
  let r := InventoryPage.queryFn loc text in
  method r = GET /\ payload r = None /\
  params_get "location" (url_params (url r)) = Some loc /\
  params_get "ldap" (url_params (url r)) = None /\
  (text = [] ->
   url r = PathQuery "/api/inventory" [("location"%string, loc)]) /\
  (text <> [] ->
   url r = PathQuery "/api/inventory/search"
             [("q"%string, text); ("location"%string, loc)]) /\
  params_get "q" (url_params (url r)) <> Some [].
Proof.
  intros Hloc. cbv zeta.
  assert (truthy loc = true) as Hl.
  { destruct Hloc as [<-|[<-|[<-|[]]]]; reflexivity. }
  unfold InventoryPage.queryFn. destruct text as [|c text]; simpl.
  - repeat split; done.
  - unfold Api.searchInventory. rewrite Hl. simpl. repeat split; done.
Qed.

Lemma X10_witness :
  url (InventoryPage.queryFn (lit "3k") (lit "drill")) =
    PathQuery "/api/inventory/search"
      [("q"%string, lit "drill"); ("location"%string, lit "3k")].
Proof.
  refine (proj1 (proj2 (proj2 (proj2 (proj2 (proj2
    (X10_inventory_query (lit "3k") (lit "drill") _)))))) _).
  - right. left. reflexivity.
  - discriminate.
Defined.

Lemma step_debounced (st : InventoryPage.State) (ev : InventoryPage.Event) :
  debounced st -> debounced (InventoryPage.step st ev).
Proof.
  unfold debounced. destruct ev as [v|]; simpl.
  - by destruct (bool_decide (v = InventoryPage.searchQuery st)).
  - destruct (InventoryPage.timer st) as [v|] eqn:E; simpl; [done|by rewrite E].
Qed.

Lemma steps_debounced (evs : list InventoryPage.Event) (st : InventoryPage.State) :
  debounced st -> debounced (InventoryPage.steps st evs).
Proof.
  revert st. induction evs as [|ev evs IH]; intros st H; [done|].
  simpl. by apply IH, step_debounced.
Qed.

(** X11: the debounce of the search field. Through any sequence of
    keystrokes and timer expiries, a pending timer always holds the
    latest text of the field, so a text that was overwritten never
    reaches the query; once the timer has fired and nothing was typed
    since, the query text is the text of the field; and typing alone
    never changes the query text. *)
Theorem X11_search_debounce (evs : list InventoryPage.Event) :
  let st := InventoryPage.steps InventoryPage.initial evs in
  (forall v, InventoryPage.timer st = Some v -> v = InventoryPage.searchQuery st) /\
  (InventoryPage.timer st = None ->
   InventoryPage.debouncedSearch st = InventoryPage.searchQuery st) /\
  InventoryPage.debouncedSearch
    (InventoryPage.step st InventoryPage.TimerFired) = InventoryPage.searchQuery st /\
  (forall v, InventoryPage.debouncedSearch (InventoryPage.step st (InventoryPage.Typed v))
             = InventoryPage.debouncedSearch st).
Proof.
  cbv zeta.
  pose proof (steps_debounced evs InventoryPage.initial eq_refl) as H.
  set (st := InventoryPage.steps InventoryPage.initial evs) in *.
  unfold debounced in H. repeat split.
  - intros v Hv. by rewrite Hv in H.
  - intros Hn. by rewrite Hn in H.
  - simpl. destruct (InventoryPage.timer st); simpl; done.
  - intros v. simpl. by destruct (bool_decide _).
Qed.

Example debounce_run :
  let st := InventoryPage.steps InventoryPage.initial
              [ InventoryPage.TimerFired; InventoryPage.Typed (lit "d");
                InventoryPage.Typed (lit "dr"); InventoryPage.Typed (lit "dri");
                InventoryPage.TimerFired; InventoryPage.Typed (lit "dril") ] in
  InventoryPage.debouncedSearch st = lit "dri" /\
  InventoryPage.timer st = Some (lit "dril").
Proof. vm_compute. done. Qed.

(** ** The navigation bar *)

Lemma filter_none {A : Type} (p : A -> bool) (l : list A) :
  (forall x, In x l -> p x = false) -> List.filter p l = [].
Proof.
  induction l as [|x l IH]; [done|]. intros H. simpl.
  rewrite (H x (or_introl eq_refl)). apply IH. intros y Hy. apply H. by right.
Qed.

(** X12: the navigation bar marks a link as active exactly when the
    current path is the link's path; the four paths are distinct, so at
    most one link is active on any page: exactly one on the dashboard,
    the inventory, the check-outs and the overdue page, and none
    elsewhere, as on the pages of single items. *)
Theorem X12_one_active_link (pathname : jsstring) :
  (length (Navbar.activeLinks pathname) <= 1)%nat /\
  (length (Navbar.activeLinks pathname) = 1%nat <->
   In pathname (map fst Navbar.navLinks)) /\
  (forall l, In l (Navbar.activeLinks pathname) -> fst l = pathname) /\
  (forall id, Navbar.activeLinks (lit (Routes.itemLink id)) = []).
Proof.
  assert (Hcases : pathname = lit "/" \/ pathname = lit "/inventory" \/
                   pathname = lit "/checkouts" \/ pathname = lit "/overdue" \/
                   ~ In pathname (map fst Navbar.navLinks)).
  { destruct (decide (pathname = lit "/")); [tauto|].
    destruct (decide (pathname = lit "/inventory")); [tauto|].
    destruct (decide (pathname = lit "/checkouts")); [tauto|].
    destruct (decide (pathname = lit "/overdue")); [tauto|].
    do 4 right. simpl. intros [?|[?|[?|[?|[]]]]]; congruence. }
  split; [|split; [|split]].
  - destruct Hcases as [->|[->|[->|[->|Hn]]]]; try (vm_compute; lia).
    unfold Navbar.activeLinks. rewrite filter_none; [simpl; lia|].
    intros l Hl. unfold Navbar.isActive. apply bool_decide_eq_false.
    intros ->. apply Hn, in_map, Hl.
  - destruct Hcases as [->|[->|[->|[->|Hn]]]];
      try (split; [intros _; vm_compute; tauto | intros _; reflexivity]).
    unfold Navbar.activeLinks. rewrite filter_none.
    + simpl length. split; [discriminate | intros H; by destruct Hn].
    + intros l Hl. unfold Navbar.isActive. apply bool_decide_eq_false.
      intros ->. apply Hn, in_map, Hl.
  - intros l [_ Hl]%filter_In. unfold Navbar.isActive in Hl.
    by apply bool_decide_eq_true in Hl.
  - intros id. unfold Navbar.activeLinks. apply filter_none.
    intros l Hl. unfold Navbar.isActive. apply bool_decide_eq_false.
    unfold Routes.itemLink. rewrite lit_app.
    destruct Hl as [<-|[<-|[<-|[<-|[]]]]]; simpl; discriminate.
Qed.

(** ** The check-in pages *)

Lemma step_mounted (st : CheckoutsPage.State) (ev : CheckoutsPage.Event) :
  mounted st -> mounted (fst (CheckoutsPage.step st ev)).
Proof.
  unfold mounted, CheckoutsPage.step.
  destruct st as [o [c|] [m|]]; simpl; try done; intros _;
    destruct ev; simpl; try done.
  all: unfold CheckinModalEvents.handleClose;
    by destruct (negb (CheckinModal.isPending m)).
Qed.

Lemma steps_mounted (evs : list CheckoutsPage.Event) (st : CheckoutsPage.State) :
  mounted st -> mounted (fst (CheckoutsPage.steps st evs)).
Proof.
  revert st. induction evs as [|ev evs IH]; intros st H; [done|].
  simpl. pose proof (step_mounted st ev H) as H1.
  destruct (CheckoutsPage.step st ev) as [st1 r1].
  specialize (IH st1 H1). by destruct (CheckoutsPage.steps st1 evs).
Qed.

(** One event sends at most the check-in of the selected checkout, and
    selects nothing but the checkout that was clicked. *)
Lemma step_requests (st : CheckoutsPage.State) (ev : CheckoutsPage.Event) :
  (forall r, In r (snd (CheckoutsPage.step st ev)) ->
     exists c fd, CheckoutsPage.selectedCheckout st = Some c /\
                  r = Api.checkinItem (CheckinModal.submitted c fd)) /\
  (forall c, CheckoutsPage.selectedCheckout (fst (CheckoutsPage.step st ev)) = Some c ->
     CheckoutsPage.selectedCheckout st = Some c \/ ev = CheckoutsPage.ClickCheckin c).
Proof.
  unfold CheckoutsPage.step, CheckinModalEvents.handleClose.
  destruct st as [o [c|] [m|]]; destruct ev; simpl;
    try destruct (CheckinModal.isPending m); simpl;
    (split; [intros r Hr | intros c' Hc']);
    try (by destruct Hr); try discriminate;
    try (injection Hc' as <-; tauto).
  all: destruct Hr as [<-|[]]; by exists c, (CheckinModal.formData m).
Qed.

Lemma steps_requests (evs : list CheckoutsPage.Event) (st : CheckoutsPage.State) (r : Request) :
  In r (snd (CheckoutsPage.steps st evs)) ->
  exists c fd,
    (CheckoutsPage.selectedCheckout st = Some c \/ In (CheckoutsPage.ClickCheckin c) evs) /\
    r = Api.checkinItem (CheckinModal.submitted c fd).
Proof.
  revert st. induction evs as [|ev evs IH]; intros st; [done|].
  simpl. destruct (step_requests st ev) as [H1 H2].
  destruct (CheckoutsPage.step st ev) as [st1 r1].
  specialize (IH st1). destruct (CheckoutsPage.steps st1 evs) as [st2 r2].
  simpl in *. intros [Hr|Hr]%in_app_or.
  - destruct (H1 r Hr) as (c & fd & Hc & ->). exists c, fd. tauto.
  - destruct (IH Hr) as (c & fd & [Hc|Hc] & ->); exists c, fd; [|tauto].
    destruct (H2 c Hc) as [?| ->]; tauto.
Qed.

(** X13: on the check-outs page and the overdue page, every check-in
    sent is the check-in of a checkout whose "Check In" button was
    clicked before; without a click nothing is sent. *)
Theorem X13_checkin_targets_clicked
    (evs : list CheckoutsPage.Event) (r : Request) :
  In r (snd (CheckoutsPage.steps CheckoutsPage.initial evs)) ->
  exists c fd,
    In (CheckoutsPage.ClickCheckin c) evs /\
    r = Api.checkinItem (CheckinModal.submitted c fd) /\
    method r = POST /\ url r = Path "/api/checkout/checkin" /\
    (exists rest, body r = Some (("checkout_id"%string, Num (ac_checkout_id c)) :: rest)).
Proof.
  intros Hr. destruct (steps_requests evs _ r Hr) as (c & fd & [Hc|Hc] & ->);
    [discriminate|].
  exists c, fd. repeat split; try done. unfold body. simpl. by eexists.
Qed.

Lemma X13_witness :
  exists c fd,
    In (CheckoutsPage.ClickCheckin c)
       [CheckoutsPage.ClickCheckin loan; CheckoutsPage.Submit] /\
    Api.checkinItem (CheckinModal.submitted loan (CheckinModal.formData CheckinModal.initial))
      = Api.checkinItem (CheckinModal.submitted c fd) /\
    method (Api.checkinItem (CheckinModal.submitted loan
              (CheckinModal.formData CheckinModal.initial))) = POST /\
    url (Api.checkinItem (CheckinModal.submitted loan
           (CheckinModal.formData CheckinModal.initial))) = Path "/api/checkout/checkin" /\
    (exists rest,
       body (Api.checkinItem (CheckinModal.submitted loan
               (CheckinModal.formData CheckinModal.initial)))
       = Some (("checkout_id"%string, Num (ac_checkout_id c)) :: rest)).
Proof.
  apply (X13_checkin_targets_clicked
           [CheckoutsPage.ClickCheckin loan; CheckoutsPage.Submit]).
  left. reflexivity.
Defined.

(** X14: every check-in modal starts afresh. The modal is unmounted when
    it closes, so the form that [resetForm] leaves behind (notes
    "returned") is never shown again: whatever happened before, when no
    checkout is selected, a click on "Check In" followed at once by the
    submission sends the check-in of the clicked checkout in good
    condition and without notes. *)
Theorem X14_checkin_modal_fresh
    (evs : list CheckoutsPage.Event) (c : ActiveCheckout) :
  let st := fst (CheckoutsPage.steps CheckoutsPage.initial evs) in
  CheckoutsPage.selectedCheckout st = None ->
  exists r,
    snd (CheckoutsPage.steps st [CheckoutsPage.ClickCheckin c; CheckoutsPage.Submit]) = [r] /\
    method r = POST /\ url r = Path "/api/checkout/checkin" /\
    body r = Some [ ("checkout_id"%string, Num (ac_checkout_id c));
                    ("return_condition"%string, Str (lit "good")) ].
Proof.
  cbv zeta. intros Hsel.
  pose proof (steps_mounted evs CheckoutsPage.initial I) as Hm.
  destruct (fst (CheckoutsPage.steps CheckoutsPage.initial evs)) as [o s m].
  unfold mounted in Hm. simpl in Hsel, Hm. subst s.
  destruct m as [m|]; [done|].
  eexists. split; [reflexivity|]. repeat split.
Qed.

Lemma X14_witness :
  exists r,
    snd (CheckoutsPage.steps
           (fst (CheckoutsPage.steps CheckoutsPage.initial
                   [CheckoutsPage.ClickCheckin loan;
                    CheckoutsPage.Change (CheckinModalEvents.ChangeReturnNotes (lit "scratched"));
                    CheckoutsPage.Close]))
           [CheckoutsPage.ClickCheckin loan; CheckoutsPage.Submit]) = [r] /\
    method r = POST /\ url r = Path "/api/checkout/checkin" /\
    body r = Some [ ("checkout_id"%string, Num 42);
                    ("return_condition"%string, Str (lit "good")) ].
Proof.
  exact (X14_checkin_modal_fresh
           [CheckoutsPage.ClickCheckin loan;
            CheckoutsPage.Change (CheckinModalEvents.ChangeReturnNotes (lit "scratched"));
            CheckoutsPage.Close] loan eq_refl).
Defined.

(** X15: the outcome of a check-in. With a checkout selected, the
    submission sends its check-in at once (the form has nothing to
    validate) and, while it is pending, closing is refused; the success
    closes the modal and clears the selection; the failure keeps the
    selection and the entered data, with the reported message, or
    "Failed to check in item" when there is none, as the only error. *)
Theorem X15_checkin_outcome
    (o : bool) (c : ActiveCheckout) (m : CheckinModal.State) (reported : option string) :
  let st := {| CheckoutsPage.isCheckinModalOpen := o;
               CheckoutsPage.selectedCheckout := Some c;
               CheckoutsPage.modal := Some m |} in
  let req := Api.checkinItem (CheckinModal.submitted c (CheckinModal.formData m)) in
  let pending := {| CheckinModal.formData := CheckinModal.formData m;
                    CheckinModal.errors := CheckinModal.errors m;
                    CheckinModal.isPending := true |} in
  let msg := errorMessage "Failed to check in item" reported in
  CheckoutsPage.steps st [CheckoutsPage.Submit; CheckoutsPage.Close] =
    ({| CheckoutsPage.isCheckinModalOpen := o;
        CheckoutsPage.selectedCheckout := Some c;
        CheckoutsPage.modal := Some pending |}, [req]) /\
  CheckoutsPage.steps st [CheckoutsPage.Submit; CheckoutsPage.MutationSuccess] =
    (CheckoutsPage.initial, [req]) /\
  CheckoutsPage.steps st [CheckoutsPage.Submit; CheckoutsPage.MutationError reported] =
    ({| CheckoutsPage.isCheckinModalOpen := o;
        CheckoutsPage.selectedCheckout := Some c;
        CheckoutsPage.modal :=
          Some {| CheckinModal.formData := CheckinModal.formData m;
                  CheckinModal.errors := {[ "submit"%string := msg ]};
                  CheckinModal.isPending := false |} |}, [req]) /\
  msg <> ""%string.
Proof.
  cbv zeta. repeat split. by apply errorMessage_nonempty.
Qed.

(** ** Badge and action button *)

(** X16: on the details page the availability badge and the action
    button agree for every item with a non-negative stock: the badge
    reads "Out of Stock" exactly when the button is the disabled
    Out-of-Stock button on which a click does nothing, and exactly when
    the item card shows no Checkout button. With a negative stock they
    disagree: the button is the Out-of-Stock button, the badge is not. *)
Theorem X16_badge_button_agree (item : Item) :
  (0 <= quantity_available item ->
   (badge_children (ItemDetailsPage.getAvailabilityBadge item) = "Out of Stock"%string
    <-> button_disabled (ItemDetailsPage.actionButton item) = true) /\
   (badge_children (ItemDetailsPage.getAvailabilityBadge item) = "Out of Stock"%string
    <-> click (ItemDetailsPage.actionButton item) = []) /\
   (badge_children (ItemCard.getAvailabilityBadge item) = "Out of Stock"%string
    <-> ItemCard.buttons item true = [])) /\
  (quantity_available item < 0 ->
   button_children (ItemDetailsPage.actionButton item) = "Out of Stock"%string /\
   badge_children (ItemDetailsPage.getAvailabilityBadge item) <> "Out of Stock"%string).
Proof.
  unfold ItemDetailsPage.getAvailabilityBadge, ItemCard.getAvailabilityBadge,
    ItemDetailsPage.actionButton, ItemCard.buttons, click.
  destruct (Z.eqb_spec (quantity_available item) 0) as [E|E];
    destruct (Z.ltb_spec 0 (quantity_available item)) as [L|L];
    destruct (below_fifth item); simpl; repeat split; intros; try done; try lia.
Qed.

(** ** Blank LDAP handles *)

(** X17: the LDAP field is refused exactly when it holds white space
    only (spaces, tabs, line breaks, no-break spaces and the other
    characters [trim] strips), the empty field included; a field with
    any other character passes, and its handle is sent. *)
Theorem X17_ldap_refused_iff_white (item : Item) (st : CheckoutModal.State) :
  let fd := CheckoutModal.formData st in
  let after := fst (CheckoutModal.handleSubmit item st) in
  (is_Some (CheckoutModal.errors after !! "ldap"%string) <->
   forallb is_white_space (CheckoutModal.ldap fd) = true) /\
  (forall c, In c (CheckoutModal.ldap fd) -> is_white_space c = false ->
     CheckoutModal.errors after !! "ldap"%string = None /\
     In c (trim (CheckoutModal.ldap fd))).
Proof.
  cbv zeta. rewrite handleSubmit_errors, ldap_error_iff. unfold ldap_blank.
  split; [apply trim_nil_iff|].
  intros c Hin Hc.
  assert (Hmid : forall s, In c s -> In c (trimStart s)).
  { induction s as [|a s IH]; [done|]. cbn [trimStart]. intros [->|H].
    - rewrite Hc. by left.
    - destruct (is_white_space a); [by apply IH | by right]. }
  assert (In c (trim (CheckoutModal.ldap (CheckoutModal.formData st)))) as Ht.
  { unfold trim, trimEnd. apply -> in_rev. apply Hmid. apply in_rev.
    rewrite rev_involutive. by apply Hmid. }
  split; [|done]. rewrite newErrors_ldap.
  by destruct (trim (CheckoutModal.ldap (CheckoutModal.formData st))).
Qed.

Example ldap_white_space :
  map (fun v => bool_decide (trim v = []))
      [ []; lit "   "; [9; 10; 13; 160; 8232; 65279]%N; lit " a "; [8203]%N ]
  = [true; true; true; false; false].
Proof. vm_compute. reflexivity. Qed.
